(** * Rslib configuration composition (packages/core/src/config.ts)

    A shallow embedding of the composition engine of [config.ts]: the
    JavaScript values the code builds are a tree type [Value], the
    effects (warnings of the logger, thrown errors, awaited results) are a
    small log-and-error monad [M], and the functions of the file are
    translated one by one under their own names.

    What lives outside the file is taken as it is used:
    - [mergeRsbuildConfig] (package @rsbuild/core), [glob] (fast-glob),
      the [node:path] functions, and the helpers of [./utils/helper] and
      [./utils/syntax] are the fields of the class [Externals], what the
      discovery of the config file reads those of [ConfigFiles];
    - [getDefaultExtension] ([./utils/extension]) follows the decision
      table of the specification;
    - the matching of a [RegExp] is given by a parser and a backtracking
      matcher for the pattern syntax that dependency names can produce. *)

From Stdlib Require Import ZArith Ascii String List.
From stdpp Require Import base strings list gmap pretty.

#[local] Set Warnings "-register-all".

(** ** JavaScript values *)

(** Configuration objects are plain trees.  Objects keep their own
    enumerable properties in insertion order (what [Object.keys], spread
    and [for ... of Object.keys] observe); integer-like keys, prototype
    properties and non-enumerable properties such as [length] are not
    part of the model.  Numbers are the integers.  A function value is
    its label together with the variables it closes over; [VExt] is the value returned by a call into
    another package.  [VRegExp] holds the source text of a [RegExp]
    without flags; the syntax check of the constructor is not modelled. *)
Inductive Value : Type :=
  | VUndefined
  | VNull
  | VBool (b : bool)
  | VNum (n : Z)
  | VStr (s : string)
  | VRegExp (source : string)
  | VFun (label : string) (captured : list Value)
  | VExt (callee : string) (args : list Value)
  | VArr (items : list Value)
  | VObj (fields : list (string * Value)).

Module JS.

(** [Boolean(v)], the test of [if (v)], [!v] and [filter(Boolean)]. *)
Definition truthy (v : Value) : bool :=
  match v with
  | VUndefined | VNull => false
  | VBool b => b
  | VNum n => negb (n =? 0)%Z
  | VStr s => negb (String.eqb s "")
  | _ => true
  end.

(** [v === undefined || v === null], the test of [??] and [?.]. *)
Definition nullish (v : Value) : bool :=
  match v with
  | VUndefined | VNull => true
  | _ => false
  end.

(** [a ?? b] *)
Definition coalesce (a b : Value) : Value := if nullish a then b else a.

(** Lookup and update in a property list. *)
Fixpoint assoc {A} (k : string) (l : list (string * A)) : option A :=
  match l with
  | [] => None
  | (k', v) :: l' => if String.eqb k k' then Some v else assoc k l'
  end.

(** [o[k] = v]: an existing key keeps its place, a new key goes last. *)
Fixpoint setField (k : string) (v : Value) (l : list (string * Value))
  : list (string * Value) :=
  match l with
  | [] => [(k, v)]
  | (k', v') :: l' =>
      if String.eqb k k' then (k, v) :: l' else (k', v') :: setField k v l'
  end.

(** [delete o[k]] *)
Definition deleteField (k : string) (l : list (string * Value))
  : list (string * Value) :=
  filter (λ kv, negb (String.eqb k kv.1)) l.

Definition chars (s : string) : list string :=
  (λ c, String c EmptyString) <$> list_ascii_of_string s.

(** The own enumerable properties: the fields of an object, the indexed
    elements of an array, the indexed characters of a string. *)
Definition ownEntries (v : Value) : list (string * Value) :=
  match v with
  | VObj fields => fields
  | VArr items => imap (λ i x, (pretty i, x)) items
  | VStr s => imap (λ i c, (pretty i, VStr c)) (chars s)
  | _ => []
  end.

(** [Object.keys(v)] *)
Definition keys (v : Value) : list string := (ownEntries v).*1.

(** [v[k]] and [v?.[k]]: a missing property, and any property of
    [undefined] or [null] reached through [?.], is [undefined]. *)
Definition get (v : Value) (k : string) : Value :=
  default VUndefined (assoc k (ownEntries v)).

(** [{ ...base, ...v }] on the property list [base]. *)
Definition spread (base : list (string * Value)) (v : Value)
  : list (string * Value) :=
  fold_left (λ acc kv, setField kv.1 kv.2 acc) (ownEntries v) base.

(** [v === s] for a string literal [s]. *)
Definition isStr (v : Value) (s : string) : bool :=
  match v with VStr s' => String.eqb s' s | _ => false end.

(** [v === false] *)
Definition isFalse (v : Value) : bool :=
  match v with VBool false => true | _ => false end.

(** [v === undefined] *)
Definition isUndefined (v : Value) : bool :=
  match v with VUndefined => true | _ => false end.

(** A default of a destructuring pattern or of a parameter: it stands
    in for [undefined] only. *)
Definition orDefault (v d : Value) : Value :=
  if isUndefined v then d else v.

(** [o.k = x] and [delete o.k] on a plain object; the assignment to a
    property of any other value is not modelled and leaves it as it
    is. *)
Definition setProp (o : Value) (k : string) (x : Value) : Value :=
  match o with VObj fields => VObj (setField k x fields) | _ => o end.

Definition deleteProp (o : Value) (k : string) : Value :=
  match o with VObj fields => VObj (deleteField k fields) | _ => o end.

(** [Array.isArray(v)] *)
Definition isArray (v : Value) : bool :=
  match v with VArr _ => true | _ => false end.

(** [arr.includes(x)] on strings. *)
Definition includes (x : string) (l : list string) : bool :=
  bool_decide (x ∈ l).

(** [Array.from(new Set(l))]: the first occurrence of each element, in
    order. *)
Fixpoint uniq (l : list string) : list string :=
  match l with
  | [] => []
  | x :: l' => x :: filter (λ y, y ≠ x) (uniq l')
  end.

(** [arr.join(sep)] *)
Fixpoint join (sep : string) (l : list string) : string :=
  match l with
  | [] => ""
  | [x] => x
  | x :: l' => x +:+ sep +:+ join sep l'
  end.

(** [`${v}`]: the string a template literal puts in for [v].  A
    function stands for its label, as its source text is not part of
    the value. *)
Fixpoint toString (v : Value) : string :=
  match v with
  | VUndefined => "undefined"
  | VNull => "null"
  | VBool true => "true"
  | VBool false => "false"
  | VNum n => pretty n
  | VStr s => s
  | VRegExp source => "/" +:+ source +:+ "/"
  | VFun label _ => label
  | VExt _ _ => "[object Object]"
  | VObj _ => "[object Object]"
  | VArr items =>
      join "," (map (λ x, if nullish x then "" else toString x) items)
  end.

End JS.

(** ** Errors, warnings and the composition monad *)

(** The errors the file throws, each with the value its message
    interpolates; [TypeError] is raised by the language itself and
    [External] inside a collaborator. *)
Inductive Error : Type :=
  | UnsupportedFormat (format : Value)
  | UnsupportedPlatform (target : Value)
  | ExpectLibArray (lib : Value)
  | EntryShape
  | CannotFind (resolvedEntryFiles : list string)
  | TypeError (message : string)
  | External (message : string).

(** [error.message] *)
Definition message (e : Error) : string :=
  match e with
  | UnsupportedFormat format => "Unsupported format: " +:+ JS.toString format
  | UnsupportedPlatform target =>
      "Unsupported platform: " +:+ JS.toString target
  | ExpectLibArray lib =>
      "Expect lib field to be an array, but got " +:+ JS.toString lib +:+ "."
  | EntryShape => "Entry can only be a string or an array of strings for now"
  | CannotFind resolvedEntryFiles =>
      "Cannot find " +:+ JS.join "," resolvedEntryFiles
  | TypeError message => message
  | External message => message
  end.

(** The lines handed to [logger.warn], oldest first. *)
Abbreviation Log := (list string).

(** A computation reads and extends the log and either throws or
    returns.  The same type stands for [async] functions: an [await] is
    a bind. *)
Definition M (A : Type) : Type := Log → (Error + A) * Log.

Definition ret {A} (a : A) : M A := λ log, (inr a, log).

Definition throw {A} (e : Error) : M A := λ log, (inl e, log).

Definition bind {A B} (c : M A) (k : A → M B) : M B :=
  λ log,
    match c log with
    | (inl e, log') => (inl e, log')
    | (inr a, log') => k a log'
    end.

Definition warn (line : string) : M unit := λ log, (inr tt, log ++ [line]).

Definition lift {A} (r : Error + A) : M A :=
  match r with
  | inl e => throw e
  | inr a => ret a
  end.

Notation "'do' x <- c ; k" := (bind c (λ x, k))
  (at level 10, x name, c at level 100, k at level 200).

(** [for (const x of l) { body }], with an accumulator. *)
Fixpoint forOf {A S} (l : list A) (body : S → A → M S) (s : S) : M S :=
  match l with
  | [] => ret s
  | x :: l' => do s' <- body s x; forOf l' body s'
  end.

(** [Promise.all(l.map(async f))], the units taken in order. *)
Fixpoint mapM {A B} (f : A → M B) (l : list A) : M (list B) :=
  match l with
  | [] => ret []
  | x :: l' => do y <- f x; do ys <- mapM f l'; ret (y :: ys)
  end.

(** ** The package descriptor *)

(** The [type] of a package descriptor. *)
Inductive PkgType : Type := TypeCommonjs | TypeModule | TypeAbsent.

(** [PkgJson]: the fields of package.json the composition reads. *)
Record PkgJson : Type := {
  pkgType : PkgType;
  dependencies : option (list (string * string));
  peerDependencies : option (list (string * string));
  devDependencies : option (list (string * string))
}.

(** [pkgJson[type]] for the three dependency lists. *)
Definition pkgField (pkgJson : PkgJson) (type : string)
  : option (list (string * string)) :=
  if String.eqb type "dependencies" then dependencies pkgJson
  else if String.eqb type "peerDependencies" then peerDependencies pkgJson
  else if String.eqb type "devDependencies" then devDependencies pkgJson
  else None.

(** ** composeAutoExternalConfig *)

(** Modelled from the spec: [isObject] of ./utils/helper, which is not
    among the sources.  The user's externals are consulted when they are
    an object with the configured names as keys; the comment at the call
    says that strings, arrays and other shapes are not processed. *)
Definition isObject (v : Value) : bool :=
  match v with VObj _ => true | _ => false end.

Definition autoExternalWarning : string :=
  "autoExternal configuration will not be applied due to read package.json failed".

Definition depTypes : list string :=
  ["dependencies"; "peerDependencies"; "devDependencies"].

(** [`^${dep}($|\\/|\\\\)`]: the text of the template literal, in which
    each doubled backslash is one backslash. *)
Definition prefixPattern (dep : string) : string :=
  "^" +:+ dep +:+ "($|\/|\\)".

Definition externalOptions (autoExternal : Value) : list (string * Value) :=
  JS.spread
    [("dependencies", VBool true); ("peerDependencies", VBool true);
     ("devDependencies", VBool false)]
    (match autoExternal with VBool true => VObj [] | _ => autoExternal end).

Definition userExternalKeys (userExternals : Value) : list string :=
  if JS.truthy userExternals && isObject userExternals
  then JS.keys userExternals else [].

Definition autoExternals (autoExternal : Value) (pkgJson : PkgJson)
    (userExternals : Value) : list string :=
  filter (λ name, negb (JS.includes name (userExternalKeys userExternals)))
    (fold_left
       (λ prev type,
          if JS.truthy (default VUndefined
                          (JS.assoc type (externalOptions autoExternal)))
          then match pkgField pkgJson type with
               | Some deps => prev ++ deps.*1
               | None => prev
               end
          else prev)
       depTypes []).

Definition composeAutoExternalConfig (autoExternal : Value)
    (pkgJson : option PkgJson) (userExternals : Value) : M Value :=
  if negb (JS.truthy autoExternal) then ret (VObj [])
  else
    match pkgJson with
    | None => do _ <- warn autoExternalWarning; ret (VObj [])
    | Some pkgJson =>
        let externals := autoExternals autoExternal pkgJson userExternals in
        let uniqueExternals := JS.uniq externals in
        ret (if negb (length externals =? 0)%nat
             then VObj [("output",
                    VObj [("externals",
                      VArr (((λ dep, VRegExp (prefixPattern dep))
                               <$> uniqueExternals)
                            ++ (VStr <$> uniqueExternals)))])]
             else VObj [])
    end.

(** ** Regular expressions *)

(** The patterns [composeAutoExternalConfig] builds are matched by the
    bundler with [RegExp.prototype.test].  [parse] reads the pattern
    syntax a dependency name can bring in: pattern characters, [.],
    escaped syntax characters, groups, alternatives, the anchors and the
    quantifiers [*], [+], [?].  Character classes, braces, look-around
    and letter escapes are outside this fragment, and [parse] gives
    [None] for them as it does for a syntax error.  Strings are taken
    character by character, without flags. *)
Module RegExp.

Inductive re : Type :=
  | Empty
  | Chr (c : ascii)
  | AnyChar
  | Bol
  | Eol
  | Seq (r1 r2 : re)
  | Alt (r1 r2 : re)
  | Star (r : re).

(** SyntaxCharacter of the ECMAScript pattern grammar. *)
Definition syntaxChar (c : ascii) : bool :=
  bool_decide (c ∈ list_ascii_of_string "^$\.*+?()[]{}|").

(** What the last term read allows next: a quantifier after an atom, a
    lazy mark after a quantifier. *)
Inductive last : Type := NoAtom | Atom | Quantified.

(** An open group: the alternatives already closed and the terms of the
    alternative being read, both latest first. *)
Record frame : Type := {
  closed : list re;
  terms : list re
}.

Definition emptyFrame : frame := {| closed := []; terms := [] |}.

Definition seqOf (ts : list re) : re :=
  fold_left (λ acc t, Seq t acc) ts Empty.

Definition closeFrame (f : frame) : re :=
  fold_left (λ acc a, Alt a acc) (closed f) (seqOf (terms f)).

Definition push (t : re) (f : frame) : frame :=
  {| closed := closed f; terms := t :: terms f |}.

Definition quantify (c : ascii) (r : re) : re :=
  if Ascii.eqb c "*" then Star r
  else if Ascii.eqb c "+" then Seq r (Star r)
  else Alt r Empty.

Fixpoint parseGo (s : list ascii) (st : last) (top : frame)
    (stack : list frame) : option re :=
  match s with
  | [] =>
      match stack with
      | [] => Some (closeFrame top)
      | _ :: _ => None
      end
  | c :: s' =>
      if Ascii.eqb c "(" then
        match s' with
        | q :: s'' =>
            if Ascii.eqb q "?" then
              match s'' with
              | d :: s3 =>
                  if Ascii.eqb d ":"
                  then parseGo s3 NoAtom emptyFrame (top :: stack)
                  else None
              | [] => None
              end
            else parseGo s' NoAtom emptyFrame (top :: stack)
        | [] => None
        end
      else if Ascii.eqb c ")" then
        match stack with
        | [] => None
        | f :: stack' => parseGo s' Atom (push (closeFrame top) f) stack'
        end
      else if Ascii.eqb c "|" then
        parseGo s' NoAtom
          {| closed := seqOf (terms top) :: closed top; terms := [] |} stack
      else if Ascii.eqb c "^" then parseGo s' NoAtom (push Bol top) stack
      else if Ascii.eqb c "$" then parseGo s' NoAtom (push Eol top) stack
      else if Ascii.eqb c "." then parseGo s' Atom (push AnyChar top) stack
      else if Ascii.eqb c "\" then
        match s' with
        | e :: s'' =>
            if syntaxChar e || Ascii.eqb e "/"
            then parseGo s'' Atom (push (Chr e) top) stack
            else None
        | [] => None
        end
      else if Ascii.eqb c "*" || Ascii.eqb c "+" || Ascii.eqb c "?" then
        match st, terms top with
        | Atom, t :: ts =>
            parseGo s' Quantified
              {| closed := closed top; terms := quantify c t :: ts |} stack
        | Quantified, _ =>
            if Ascii.eqb c "?" then parseGo s' NoAtom top stack else None
        | _, _ => None
        end
      else if Ascii.eqb c "[" || Ascii.eqb c "{" then None
      else parseGo s' Atom (push (Chr c) top) stack
  end.

Definition parse (source : string) : option re :=
  parseGo (list_ascii_of_string source) NoAtom emptyFrame [].

(** LineTerminator, as far as one character goes. *)
Definition lineTerminator (c : ascii) : bool :=
  Ascii.eqb c "010" || Ascii.eqb c "013".

(** [matchK r start s k]: [r] matches a prefix of [s] and [k] accepts
    what is left.  [start] tells whether [s] begins at index 0 of the
    input.  An iteration of [Star] that consumes nothing is not
    repeated. *)
Fixpoint matchK (r : re) (start : bool) (s : list ascii)
    (k : bool → list ascii → bool) : bool :=
  match r with
  | Empty => k start s
  | Chr c =>
      match s with
      | c' :: s' => Ascii.eqb c c' && k false s'
      | [] => false
      end
  | AnyChar =>
      match s with
      | c' :: s' => negb (lineTerminator c') && k false s'
      | [] => false
      end
  | Bol => start && k start s
  | Eol => match s with [] => k start s | _ :: _ => false end
  | Seq r1 r2 => matchK r1 start s (λ start' s', matchK r2 start' s' k)
  | Alt r1 r2 => matchK r1 start s k || matchK r2 start s k
  | Star r' =>
      (fix loop (n : nat) (start : bool) (s : list ascii) : bool :=
         k start s
         || match n with
            | O => false
            | S n' =>
                matchK r' start s
                  (λ start' s', (length s' <? length s)%nat
                                && loop n' start' s')
            end) (length s) start s
  end.

(** A match beginning at some index of the input. *)
Fixpoint search (r : re) (start : bool) (s : list ascii) : bool :=
  matchK r start s (λ _ _, true)
  || match s with
     | [] => false
     | _ :: s' => search r false s'
     end.

(** [new RegExp(source).test(input)] *)
Definition test (source input : string) : option bool :=
  match parse source with
  | Some r => Some (search r true (list_ascii_of_string input))
  | None => None
  end.

End RegExp.

(** ** The collaborators of config.ts *)

(** What [config.ts] imports and calls.  [mergeRsbuildConfig] comes from
    @rsbuild/core and is taken as a function of values: it returns a
    fresh object and leaves its arguments alone.  [glob] is fast-glob
    against the file system, [dirname], [pathRelative], [pathParse] (the
    [dir] and [name] of the result) and [pathJoin] are node:path, and the
    rest are the helpers of ./utils. *)
Class Externals : Type := {
  mergeRsbuildConfig : list Value → Value;
  omitDeep : Value → list string → Value;
  readPackageJson : string → option PkgJson;
  nodeBuiltInModules : Value;
  transformSyntaxToBrowserslist : Value → Error + Value;
  calcLongestCommonPath : list string → option string;
  glob : list Value → string → Error + list string;
  dirname : Value → Error + string;
  pathRelative : string → string → string;
  pathParse : string → string * string;
  pathJoin : string → string → string
}.

(** Modelled from the spec: [getDefaultExtension] of ./utils/extension,
    which is not among the sources.  It follows the decision table of
    section 4.4, a function of the format, the [type] of the package
    descriptor and the auto-extension flag: [.mjs]/[.d.mts] for esm in a
    commonjs package, [.cjs]/[.d.cts] for cjs in a module package, and
    [.js]/[.d.ts] in every other row; the one combination the table does
    not list (cjs, no [type], flag on) gets [.js]/[.d.ts] as well, and so
    does a descriptor that could not be read. *)
Definition getDefaultExtension (format : Value) (pkgJson : option PkgJson)
    (autoExtension : bool) : string * string :=
  let type := default TypeAbsent (pkgType <$> pkgJson) in
  if negb autoExtension then (".js", ".d.ts")
  else
    match type with
    | TypeCommonjs =>
        if JS.isStr format "esm" then (".mjs", ".d.mts") else (".js", ".d.ts")
    | TypeModule =>
        if JS.isStr format "cjs" then (".cjs", ".d.cts") else (".js", ".d.ts")
    | TypeAbsent => (".js", ".d.ts")
    end.

(** ** The composition *)

Definition createInternalRsbuildConfig : Value :=
  VObj [
    ("mode", VStr "production");
    ("dev", VObj [("progressBar", VBool false)]);
    ("tools", VObj [
      ("htmlPlugin", VBool false);
      ("rspack", VObj [
        ("optimization", VObj [("moduleIds", VStr "named")]);
        ("experiments", VObj [
          ("rspackFuture", VObj [
            ("bundlerInfo", VObj [("force", VBool false)])])]);
        ("resolve", VObj [
          ("extensionAlias", VObj [
            (".js", VArr [VStr ".ts"; VStr ".tsx"; VStr ".js"; VStr ".jsx"]);
            (".jsx", VArr [VStr ".tsx"; VStr ".jsx"]);
            (".mjs", VArr [VStr ".mts"; VStr ".mjs"]);
            (".cjs", VArr [VStr ".cts"; VStr ".cjs"])])])])]);
    ("output", VObj [
      ("filenameHash", VBool false);
      ("minify", VObj [
        ("js", VBool true);
        ("css", VBool false);
        ("jsOptions", VObj [
          ("minimizerOptions", VObj [
            ("mangle", VBool false);
            ("minify", VBool false);
            ("compress", VObj [
              ("defaults", VBool false);
              ("unused", VBool true);
              ("dead_code", VBool true);
              ("toplevel", VBool true)]);
            ("format", VObj [("comments", VStr "all")])])])]);
      ("distPath", VObj [("js", VStr "./")])])].

Definition composeFormatConfig (format : Value) : Error + Value :=
  if JS.isStr format "esm" then
    inr (VObj [("tools", VObj [("rspack", VObj [
      ("output", VObj [
        ("module", VBool true);
        ("chunkFormat", VStr "module");
        ("library", VObj [("type", VStr "modern-module")])]);
      ("module", VObj [("parser", VObj [
        ("javascript", VObj [("importMeta", VBool false)])])]);
      ("optimization", VObj [("concatenateModules", VBool true)]);
      ("experiments", VObj [("outputModule", VBool true)])])])])
  else if JS.isStr format "cjs" then
    inr (VObj [("tools", VObj [("rspack", VObj [
      ("output", VObj [
        ("iife", VBool false);
        ("chunkFormat", VStr "commonjs");
        ("library", VObj [("type", VStr "commonjs")])])])])])
  else if JS.isStr format "umd" then
    inr (VObj [("tools", VObj [("rspack", VObj [
      ("output", VObj [("library", VObj [("type", VStr "umd")])])])])])
  else inl (UnsupportedFormat format).

(** The callback that warns about a commonjs request in an esm build. *)
Definition moduleImportWarnCallback : Value := VFun "moduleImportWarn" [].

Definition composeExternalsConfig (format externals : Value)
    : Error + Value :=
  if JS.isStr format "esm" then
    let userExternals :=
      match externals with VArr items => items | _ => [externals] end in
    inr (VObj [
      ("output", VObj [
        ("externals",
         VArr (filter (λ v, JS.truthy v)
                 (moduleImportWarnCallback :: userExternals)))]);
      ("tools", VObj [("rspack", VObj [
        ("externalsType", VStr "module-import")])])])
  else if JS.isStr format "cjs" then
    inr (VObj [
      ("output",
       if JS.truthy externals then VObj [("externals", externals)]
       else VObj []);
      ("tools", VObj [("rspack", VObj [
        ("externalsType", VStr "commonjs")])])])
  else if JS.isStr format "umd" then
    inr (VObj [
      ("output",
       if JS.truthy externals then VObj [("externals", externals)]
       else VObj []);
      ("tools", VObj [("rspack", VObj [("externalsType", VStr "umd")])])])
  else inl (UnsupportedFormat format).

Record AutoExtension : Type := {
  config : Value;
  jsExtension : string;
  dtsExtension : string
}.

Definition composeAutoExtensionConfig (libConfig : Value)
    (autoExtension : Value) (pkgJson : option PkgJson) : AutoExtension :=
  let '(jsExtension, dtsExtension) :=
    getDefaultExtension (JS.get libConfig "format") pkgJson
      (JS.truthy autoExtension) in
  {| config :=
       VObj [("output", VObj [
         ("filename",
          VObj (JS.spread [("js", VStr ("[name]" +:+ jsExtension))]
                  (JS.get (JS.get libConfig "output") "filename")))])];
     jsExtension := jsExtension;
     dtsExtension := dtsExtension |}.

(** The two functions handed to [tools.rspack]: each sets
    [config.target] to the captured list and returns the config. *)
Definition setRspackTarget (target : string) : Value :=
  VFun "setRspackTarget" [VArr [VStr target]].

Definition lastTargetVersionsNode : list Value :=
  [VStr "last 1 node versions"].

Definition lastTargetVersionsWeb : list Value :=
  [VStr "last 1 Chrome versions"; VStr "last 1 Firefox versions";
   VStr "last 1 Edge versions"; VStr "last 1 Safari versions";
   VStr "last 1 ios_saf versions"; VStr "not dead"].

(** The callback of bundleless mode that rewrites the extension of a
    relative request to [jsExtension]. *)
Definition rewriteRequestCallback (jsExtension : string) : Value :=
  VFun "rewriteRequestExtension" [VStr jsExtension].

Definition composeBundleConfig (jsExtension : string) (bundle : Value)
    : Value :=
  if JS.truthy (JS.orDefault bundle (VBool true)) then VObj []
  else VObj [("output", VObj [
         ("externals", VArr [rewriteRequestCallback jsExtension])])].

(** The declaration plugin is the value [pluginDts(options)] of the
    package rsbuild-plugin-dts. *)
Definition pluginDts (options : Value) : Value := VExt "pluginDts" [options].

Definition composeDtsConfig (libConfig : Value) (dtsExtension : string)
    : M Value :=
  let dts := JS.get libConfig "dts" in
  let bundle := JS.get libConfig "bundle" in
  let output := JS.get libConfig "output" in
  let autoExternal := JS.get libConfig "autoExternal" in
  if JS.isFalse dts || JS.isUndefined dts then ret (VObj [])
  else
    ret (VObj [("plugins", VArr [
      pluginDts (VObj [
        ("bundle", JS.coalesce (JS.get dts "bundle") bundle);
        ("distPath",
         JS.coalesce
           (JS.coalesce (JS.get dts "distPath")
              (JS.get (JS.get output "distPath") "root"))
           (VStr "./dist"));
        ("abortOnError",
         JS.coalesce (JS.get dts "abortOnError") (VBool true));
        ("dtsExtension", VStr dtsExtension);
        ("autoExternal", autoExternal)])])]).

Section Compose.

Context `{Externals}.

Definition composeSyntaxConfig (syntax target : Value) : Error + Value :=
  if JS.truthy syntax then
    match transformSyntaxToBrowserslist syntax with
    | inl e => inl e
    | inr browserslist =>
        inr (VObj [
          ("tools", VObj [("rspack", setRspackTarget "es5")]);
          ("output", VObj [("overrideBrowserslist", browserslist)])])
    end
  else
    inr (VObj [
      ("tools", VObj [("rspack", setRspackTarget "es2022")]);
      ("output", VObj [
        ("overrideBrowserslist",
         if JS.isStr target "web" then VArr lastTargetVersionsWeb
         else if JS.isStr target "node" then VArr lastTargetVersionsNode
         else VArr (lastTargetVersionsNode ++ lastTargetVersionsWeb))])]).

Definition composeTargetConfig (target : Value) : Error + Value :=
  let target := JS.orDefault target (VStr "web") in
  if JS.isStr target "web" then
    inr (VObj [("tools", VObj [("rspack", VObj [
      ("target", VArr [VStr "web"])])])])
  else if JS.isStr target "node" then
    inr (VObj [
      ("tools", VObj [("rspack", VObj [("target", VArr [VStr "node"])])]);
      ("output", VObj [
        ("externals", nodeBuiltInModules);
        ("target", VStr "node")])])
  else if JS.isStr target "neutral" then
    inr (VObj [("tools", VObj [("rspack", VObj [
      ("target", VArr [VStr "web"; VStr "node"])])])])
  else inl (UnsupportedPlatform target).

(** The glob patterns of one entry: an array as it is, a string as a
    one-element array, [null] for any other shape. *)
Definition entryFilesOf (entry : Value) : option (list Value) :=
  match entry with
  | VArr items => Some items
  | VStr _ => Some [entry]
  | _ => None
  end.

(** One round of the loop over [Object.keys(entries)]. *)
Definition resolveEntry (entries : Value) (root : string)
    (resolvedEntries : list (string * Value)) (key : string)
    : M (list (string * Value)) :=
  let entry := JS.get entries key in
  match entryFilesOf entry with
  | None => throw EntryShape
  | Some entryFiles =>
      do resolvedEntryFiles <- lift (glob entryFiles root);
      if (length resolvedEntryFiles =? 0)%nat
      then throw (CannotFind resolvedEntryFiles)
      else
        let outBase :=
          match calcLongestCommonPath resolvedEntryFiles with
          | None => root
          | Some lcp => lcp
          end in
        ret (fold_left
               (λ acc file,
                  let '(dir, name) :=
                    pathParse (pathRelative outBase file) in
                  JS.setField (pathJoin dir name) (VStr file) acc)
               resolvedEntryFiles resolvedEntries)
  end.

Definition composeEntryConfig (entries bundle : Value) (root : string)
    : M Value :=
  if negb (JS.truthy entries) then ret (VObj [])
  else if negb (JS.isFalse bundle) then
    ret (VObj [("source", VObj [("entry", entries)])])
  else
    do resolvedEntries <-
      forOf (JS.keys entries) (resolveEntry entries root) [];
    ret (VObj [("source", VObj [("entry", VObj resolvedEntries)])]).

Definition composeLibRsbuildConfig (libConfig configPath : Value)
    : M Value :=
  do rootPath <- lift (dirname configPath);
  let pkgJson := readPackageJson rootPath in
  let format := JS.get libConfig "format" in
  let autoExtension :=
    JS.orDefault (JS.get libConfig "autoExtension") (VBool true) in
  let autoExternal :=
    JS.orDefault (JS.get libConfig "autoExternal") (VBool true) in
  let output := JS.get libConfig "output" in
  do formatConfig <- lift (composeFormatConfig format);
  do externalsConfig <-
    lift (composeExternalsConfig format (JS.get output "externals"));
  let autoExtensionResult :=
    composeAutoExtensionConfig libConfig autoExtension pkgJson in
  let bundleConfig :=
    composeBundleConfig (jsExtension autoExtensionResult)
      (JS.get libConfig "bundle") in
  do targetConfig <- lift (composeTargetConfig (JS.get output "target"));
  do syntaxConfig <-
    lift (composeSyntaxConfig (JS.get output "syntax")
            (JS.get output "target"));
  do autoExternalConfig <-
    composeAutoExternalConfig autoExternal pkgJson
      (JS.get output "externals");
  do root <- lift (dirname configPath);
  do entryConfig <-
    composeEntryConfig (JS.get (JS.get libConfig "source") "entry")
      (JS.get libConfig "bundle") root;
  do dtsConfig <-
    composeDtsConfig libConfig (dtsExtension autoExtensionResult);
  ret (mergeRsbuildConfig
         [formatConfig; externalsConfig; config autoExtensionResult;
          autoExternalConfig; syntaxConfig; bundleConfig; targetConfig;
          entryConfig; dtsConfig]).

(** The fields reset on [userConfig] after the library configuration is
    composed: [source.entry] becomes an empty object and
    [output.externals] is deleted. *)
Definition resetUserConfig (userConfig : Value) : Value :=
  let userConfig :=
    JS.setProp userConfig "source"
      (JS.coalesce (JS.get userConfig "source") (VObj [])) in
  let userConfig :=
    JS.setProp userConfig "source"
      (JS.setProp (JS.get userConfig "source") "entry" (VObj [])) in
  let userConfig :=
    JS.setProp userConfig "output"
      (JS.coalesce (JS.get userConfig "output") (VObj [])) in
  JS.setProp userConfig "output"
    (JS.deleteProp (JS.get userConfig "output") "externals").

Definition omittedKeys : list string :=
  ["bundle"; "format"; "autoExtension"; "autoExternal"; "syntax"; "dts"].

(** The body of [libConfigsArray.map(async (libConfig) => ...)]. *)
Definition composeUnit (sharedRsbuildConfig configPath libConfig : Value)
    : M (Value * Value) :=
  let userConfig := mergeRsbuildConfig [sharedRsbuildConfig; libConfig] in
  do libRsbuildConfig <- composeLibRsbuildConfig userConfig configPath;
  let userConfig := resetUserConfig userConfig in
  ret (JS.get libConfig "format",
       mergeRsbuildConfig
         [createInternalRsbuildConfig; libRsbuildConfig;
          omitDeep userConfig omittedKeys]).

Definition composeCreateRsbuildConfig (rslibConfig path : Value)
    : M (list (Value * Value)) :=
  let configPath :=
    JS.coalesce path
      (JS.get (JS.get rslibConfig "_privateMeta") "configFilePath") in
  let libConfigsArray := JS.get rslibConfig "lib" in
  let sharedRsbuildConfig :=
    VObj (JS.deleteField "lib" (JS.ownEntries rslibConfig)) in
  if negb (JS.truthy libConfigsArray)
  then throw (ExpectLibArray libConfigsArray)
  else
    match libConfigsArray with
    | VArr libConfigs =>
        mapM (composeUnit sharedRsbuildConfig configPath) libConfigs
    | _ => throw (TypeError "libConfigsArray.map is not a function")
    end.

End Compose.

(** ** Environment assembly *)

(** The numbers of [formatIndex]: a count, or the [NaN] that [++] makes
    of a key the object does not have. *)
Inductive Num : Type := Fin (n : nat) | NaN.

Definition numToString (x : Num) : string :=
  match x with Fin n => pretty n | NaN => "NaN" end.

Definition increment (x : Num) : Num :=
  match x with Fin n => Fin (n + 1) | NaN => NaN end.

(** [acc[format] = (acc[format] ?? 0) + 1], over the composed units. *)
Definition formatCount (units : list (Value * Value)) : gmap string nat :=
  fold_left
    (λ acc unit,
       let format := JS.toString unit.1 in
       <[format := default 0 (acc !! format) + 1]> acc)
    units ∅.

Definition formatIndex0 : gmap string Num :=
  <["umd" := Fin 0]> (<["cjs" := Fin 0]> (<["esm" := Fin 0]> ∅)).

(** The loop of [initRsbuild]: the state is [formatIndex] and
    [environments]. *)
Definition assembleStep (count : gmap string nat)
    (state : gmap string Num * gmap string Value) (unit : Value * Value)
    : gmap string Num * gmap string Value :=
  let '(formatIndex, environments) := state in
  let format := JS.toString unit.1 in
  let currentFormatCount := count !! format in
  let currentFormatIndex := default NaN (formatIndex !! format) in
  (<[format := increment currentFormatIndex]> formatIndex,
   <[(if bool_decide (currentFormatCount = Some 1) then format
      else format +:+ numToString currentFormatIndex) := unit.2]>
     environments).

Definition assembleEnvironments (units : list (Value * Value))
    : gmap string Value :=
  (fold_left (assembleStep (formatCount units)) units (formatIndex0, ∅)).2.

(** [initRsbuild], up to the call of [createRsbuild]: the result is the
    [environments] object handed over. *)
Definition initRsbuild `{Externals} (rslibConfig : Value)
    : M (gmap string Value) :=
  do rsbuildConfigObject <- composeCreateRsbuildConfig rslibConfig VUndefined;
  ret (assembleEnvironments rsbuildConfigObject).

(** ** The callback of bundleless mode *)

(** [splitExtension s] is the match of [/\.[^.]+$/] in [s]: the text
    before the last dot and the text after it, when that dot is followed
    by at least one character. *)
Fixpoint splitExtension (s : list ascii) : option (list ascii * list ascii) :=
  match s with
  | [] => None
  | c :: s' =>
      match splitExtension s' with
      | Some (stem, ext) => Some (c :: stem, ext)
      | None =>
          if Ascii.eqb c "."
             && negb (length s' =? 0)%nat
             && forallb (λ d, negb (Ascii.eqb d ".")) s'
          then Some ([], s')
          else None
      end
  end.

(** [request.replace(/\.[^.]+$/, jsExtension)].  The replacement is
    taken as plain text, which it is for an extension without a dollar
    sign. *)
Definition replaceExtension (request jsExtension : string) : string :=
  match splitExtension (list_ascii_of_string request) with
  | Some (stem, _) => string_of_list_ascii stem +:+ jsExtension
  | None => request
  end.

(** The body of the function that [composeBundleConfig] puts in
    [output.externals], for the [issuer] and the [request] it is called
    with: [Some request] stands for [callback(null, request)], [None]
    for [callback()].  [extname] is that of node:path. *)
Definition rewriteRequest (extname : string → string) (jsExtension : string)
    (issuer request : string) : option string :=
  if negb (String.eqb issuer "") then
    Some (if String.prefix "." request
          then
            if negb (String.eqb (extname request) "")
            then replaceExtension request jsExtension
            else request +:+ jsExtension
          else request)
  else None.

(** ** Config file discovery *)

(** What [resolveConfigPath] reads: the two constants of ./constant, the
    file system through [fs.existsSync], [isAbsolute] and [join] of
    node:path, and the [dim] of the colour helper. *)
Class ConfigFiles : Type := {
  DEFAULT_CONFIG_NAME : string;
  DEFAULT_EXTENSIONS : list string;
  existsSync : string → bool;
  isAbsolute : string → bool;
  join : string → string → string;
  dim : string → string
}.

(** The error of [resolveConfigPath], with the two values its message
    interpolates. *)
Inductive ConfigError : Type := ConfigNotFound (name root : string).

Definition configErrorMessage (e : ConfigError) : string :=
  match e with
  | ConfigNotFound name root => name +:+ " not found in " +:+ root
  end.

(** [arr.find(p)] *)
Fixpoint arrayFind {A} (p : A → bool) (l : list A) : option A :=
  match l with
  | [] => None
  | x :: l' => if p x then Some x else arrayFind p l'
  end.

Definition findConfig `{ConfigFiles} (basePath : string) : option string :=
  arrayFind existsSync ((λ ext, basePath +:+ ext) <$> DEFAULT_EXTENSIONS).

(** The line handed to [logger.warn] when the custom file is missing; it
    ends with a line feed. *)
Definition cannotFindConfigWarning `{ConfigFiles} (customConfigPath : string)
    : string :=
  "Cannot find config file: " +:+ dim customConfigPath
  +:+ String "010" EmptyString.

(** The part of [resolveConfigPath] after the custom file: the search for
    the default name under each extension.  The log is threaded by hand,
    the function having an error of its own. *)
Definition searchDefaultConfig `{ConfigFiles} (root : string) (log : Log)
    : (ConfigError + string) * Log :=
  match findConfig (join root DEFAULT_CONFIG_NAME) with
  | Some configFilePath =>
      if negb (String.eqb configFilePath "") then (inr configFilePath, log)
      else (inl (ConfigNotFound DEFAULT_CONFIG_NAME root), log)
  | None => (inl (ConfigNotFound DEFAULT_CONFIG_NAME root), log)
  end.

(** [customConfig] is the optional second argument. *)
Definition resolveConfigPath `{ConfigFiles} (root : string)
    (customConfig : option string) (log : Log)
    : (ConfigError + string) * Log :=
  match customConfig with
  | Some custom =>
      if negb (String.eqb custom "") then
        let customConfigPath :=
          if isAbsolute custom then custom else join root custom in
        if existsSync customConfigPath then (inr customConfigPath, log)
        else
          searchDefaultConfig root
            (log ++ [cannotFindConfigWarning customConfigPath])
      else searchDefaultConfig root log
  | None => searchDefaultConfig root log
  end.

(** The custom file [resolveConfigPath] looks for, when one is named. *)
Definition customConfigPathOf `{ConfigFiles} (root : string)
    (customConfig : option string) : option string :=
  match customConfig with
  | Some custom =>
      if negb (String.eqb custom "")
      then Some (if isAbsolute custom then custom else join root custom)
      else None
  | None => None
  end.

(** ** A sample instance of the collaborators *)

(** A small concrete world on which the composition can be run: a deep
    merge in the manner of [mergeRsbuildConfig] (objects key by key,
    arrays appended, a function paired with what it meets, [undefined]
    ignored, otherwise the later value), an
    [omitDeep] that drops the keys at every depth, a project at [/proj]
    with one source file and no readable manifest under [/nopkg]. *)
Module Sample.

Fixpoint merge2 (x y : Value) {struct x} : Value :=
  match x, y with
  | VUndefined, _ => y
  | _, VUndefined => x
  | VBool _, _ | _, VBool _ => y
  | VArr lx, VArr ly => VArr (lx ++ ly)
  | VArr lx, _ => VArr (lx ++ [y])
  | _, VArr ly => VArr (x :: ly)
  | VFun _ _, _ | _, VFun _ _ => VArr [x; y]
  | VObj fx, VObj fy =>
      VObj ((fix go (l : list (string * Value)) : list (string * Value) :=
               match l with
               | [] => []
               | (k, v) :: l' =>
                   (k, match JS.assoc k fy with
                       | Some w => merge2 v w
                       | None => v
                       end) :: go l'
               end) fx
            ++ filter (λ kv, negb (JS.includes kv.1 (fx.*1))) fy)
  | _, _ => y
  end.

Definition merge (configs : list Value) : Value :=
  fold_left merge2 configs (VObj []).

Fixpoint omit (v : Value) (keys : list string) {struct v} : Value :=
  match v with
  | VObj fields =>
      VObj ((fix go (l : list (string * Value)) : list (string * Value) :=
               match l with
               | [] => []
               | (k, x) :: l' =>
                   if JS.includes k keys then go l'
                   else (k, omit x keys) :: go l'
               end) fields)
  | VArr items => VArr (map (λ x, omit x keys) items)
  | _ => v
  end.

Definition pkg : PkgJson :=
  {| pkgType := TypeCommonjs;
     dependencies := Some [("bar", "^1.0.0"); ("lodash.merge", "^4.6.2")];
     peerDependencies := Some [("react", "^18.0.0")];
     devDependencies := Some [("typescript", "^5.5.4")] |}.

Definition files (patterns : list Value) (cwd : string)
    : Error + list string :=
  if bool_decide (JS.toString <$> patterns = ["src/*.ts"])
  then inr ["src/index.ts"] else inr [].

Definition dir (configPath : Value) : Error + string :=
  match configPath with
  | VStr p =>
      if String.eqb p "/proj/rslib.config.ts" then inr "/proj"
      else if String.eqb p "/nopkg/rslib.config.ts" then inr "/nopkg"
      else inr p
  | _ => inl (TypeError "The path argument must be of type string")
  end.

Definition externals : Externals := {|
  mergeRsbuildConfig := merge;
  omitDeep := omit;
  readPackageJson root :=
    if String.eqb root "/proj" then Some pkg else None;
  nodeBuiltInModules := VArr [VStr "fs"; VStr "path"];
  transformSyntaxToBrowserslist syntax :=
    inr (match syntax with VArr _ => syntax | _ => VArr [syntax] end);
  calcLongestCommonPath resolved :=
    match resolved with [] => None | _ => Some "src" end;
  glob := files;
  dirname := dir;
  pathRelative outBase file :=
    if String.eqb file "src/index.ts" then "index.ts" else file;
  pathParse p :=
    if String.eqb p "index.ts" then ("", "index") else ("", p);
  pathJoin d name :=
    if String.eqb d "" then name else d +:+ "/" +:+ name
|}.

(** A descriptor whose one dependency has a dot in its name. *)
Definition dottedPkg : PkgJson :=
  {| pkgType := TypeAbsent;
     dependencies := Some [("lodash.merge", "^4.6.2")];
     peerDependencies := None;
     devDependencies := None |}.

(** The user's externals of the sample project. *)
Definition userExternals : Value := VObj [("react", VStr "react-1")].

(** A unit that sets a js filename rule, one that asks for declarations,
    one that leaves [dts] unset and one that switches auto-external and
    auto-extension off. *)
Definition unitWithFilename : Value :=
  VObj [("format", VStr "esm");
        ("output", VObj [("filename", VObj [("js", VStr "[name].js")])])].

Definition unitWithDts : Value :=
  VObj [("format", VStr "esm"); ("dts", VObj [("bundle", VBool true)])].

Definition unitWithoutDts : Value := VObj [("format", VStr "esm")].


(** The files of the sample project: a config file under the default
    name and one under a name of its own. *)
Definition configFiles : ConfigFiles := {|
  DEFAULT_CONFIG_NAME := "rslib.config";
  DEFAULT_EXTENSIONS := [".js"; ".ts"; ".mjs"; ".mts"; ".cjs"; ".cts"];
  existsSync file :=
    String.eqb file "/proj/rslib.config.ts"
    || String.eqb file "/proj/rslib.config.cjs"
    || String.eqb file "/proj/build/custom.ts";
  isAbsolute file := String.prefix "/" file;
  join dir file := dir +:+ "/" +:+ file;
  dim text := text
|}.



Definition entriesWithObject : Value :=
  VObj [("index", VObj [("import", VStr "src/index.ts")])].

Definition entriesTwice : Value :=
  VObj [("index", VStr "src/*.ts"); ("main", VArr [VStr "src/*.ts"])].

(** A root configuration with two esm units and one cjs unit. *)
Definition lib (format : string) : Value :=
  VObj [("format", VStr format);
        ("source", VObj [("entry", VObj [("index", VStr "src/*.ts")])])].

Definition rslibConfig (root : string) : Value :=
  VObj [("lib", VArr [lib "esm"; lib "esm"; lib "cjs"]);
        ("output", VObj [("externals", userExternals)]);
        ("_privateMeta",
         VObj [("configFilePath", VStr (root +:+ "/rslib.config.ts"))])].

End Sample.


(** ** Vocabulary of the statements *)

(** The names of a dependency list of the descriptor, none when the list
    is absent. *)
Definition depNames (deps : option (list (string * string))) : list string :=
  default [] (fmap (M := list) fst <$> deps).

(** Whether the selection made by [autoExternal] turns the list [type]
    on. *)
Definition listSelected (autoExternal : Value) (type : string) : bool :=
  JS.truthy (default VUndefined (JS.assoc type (externalOptions autoExternal))).

(** [name] is a key of a selected dependency list of the descriptor. *)
Definition selectedDependency (autoExternal : Value) (pkgJson : PkgJson)
    (name : string) : Prop :=
  ∃ type, type ∈ depTypes ∧ listSelected autoExternal type = true
          ∧ name ∈ depNames (pkgField pkgJson type).

(** [output.externals] of a fragment, as a list of rules. *)
Definition externalsOf (fragment : Value) : list Value :=
  match JS.get (JS.get fragment "output") "externals" with
  | VArr rules => rules
  | _ => []
  end.

(** The user's configuration does not select [name]. *)
Definition notUserExternal (userExternals : Value) (name : string) : bool :=
  negb (JS.includes name (userExternalKeys userExternals)).

(** What the prefix rule of a dependency is meant to accept: the name
    itself, or the name followed by [/] or by a backslash and anything
    after it. *)
Fixpoint nameAtBoundary (name input : list ascii) : bool :=
  match name, input with
  | [], [] => true
  | [], c :: _ => Ascii.eqb c "/" || Ascii.eqb c "\"
  | n :: name', c :: input' => Ascii.eqb n c && nameAtBoundary name' input'
  | _ :: _, [] => false
  end.

(** The group [($|\/|\\)] that ends every prefix rule. *)
Definition boundaryGroup : RegExp.re :=
  RegExp.Alt (RegExp.Seq RegExp.Eol RegExp.Empty)
    (RegExp.Alt (RegExp.Seq (RegExp.Chr "/") RegExp.Empty)
       (RegExp.Seq (RegExp.Chr "\") RegExp.Empty)).

(** The three formats of a library unit and their names. *)
Inductive Format : Type := esm | cjs | umd.

Definition formatName (format : Format) : string :=
  match format with esm => "esm" | cjs => "cjs" | umd => "umd" end.

(** The decision table of section 4.4 of the specification, row by row:
    the extension of the JavaScript output and of the declaration output.
    The table has no row for cjs in a package without [type] when the
    flag is on. *)
Definition extensionTable (format : Format) (type : PkgType)
    (autoExtension : bool) : option (string * string) :=
  match format, type, autoExtension with
  | _, _, false => Some (".js", ".d.ts")
  | umd, _, true => Some (".js", ".d.ts")
  | esm, TypeCommonjs, true => Some (".mjs", ".d.mts")
  | esm, TypeModule, true => Some (".js", ".d.ts")
  | esm, TypeAbsent, true => Some (".js", ".d.ts")
  | cjs, TypeCommonjs, true => Some (".js", ".d.ts")
  | cjs, TypeModule, true => Some (".cjs", ".d.cts")
  | cjs, TypeAbsent, true => None
  end.

(** [output.filename.js] of a fragment. *)
Definition filenameJsOf (fragment : Value) : Value :=
  JS.get (JS.get (JS.get fragment "output") "filename") "js".

(** [plugins] of a fragment. *)
Definition pluginsOf (fragment : Value) : list Value :=
  match JS.get fragment "plugins" with
  | VArr plugins => plugins
  | _ => []
  end.

#[global] Instance Format_eq_dec : EqDecision Format.
Proof. solve_decision. Defined.

(** How often a format occurs in a list of formats. *)
Definition occurrences (format : Format) (formats : list Format) : nat :=
  length (filter (λ g, g = format) formats).

(** The environment key the assembler is to give the unit at index [i],
    whose format is [format]: the bare name when the format occurs once
    among the units, otherwise the name followed by the number of earlier
    units of the same format. *)
Definition expectedKey (formats : list Format) (i : nat) (format : Format)
    : string :=
  if decide (occurrences format formats = 1) then formatName format
  else formatName format +:+ pretty (occurrences format (take i formats)).

(** The composed units as [initRsbuild] receives them. *)
Definition composedUnits (units : list (Format * Value))
    : list (Value * Value) :=
  (λ unit, (VStr (formatName unit.1), unit.2)) <$> units.

(** [writes c r w]: whatever the log holds, [c] ends with the outcome
    [r] and has appended the lines [w]. *)
Definition writes {A} (c : M A) (r : Error + A) (w : Log) : Prop :=
  ∀ log, c log = (r, log ++ w).

(** A computation whose outcome and warnings do not depend on the log
    it starts from. *)
Definition steady {A} (c : M A) : Prop := ∃ r w, writes c r w.

(** A computation that writes nothing. *)
Definition silent {A} (c : M A) : Prop := ∃ r, writes c r [].

(** The nine computed fragments of a library unit. *)
Record Fragments : Type := {
  formatConfig : Value;
  externalsConfig : Value;
  autoExtensionConfig : Value;
  autoExternalConfig : Value;
  syntaxConfig : Value;
  bundleConfig : Value;
  targetConfig : Value;
  entryConfig : Value;
  dtsConfig : Value
}.

(** The fragments in their order of merging, lowest precedence first. *)
Definition fragmentList (F : Fragments) : list Value :=
  [formatConfig F; externalsConfig F; autoExtensionConfig F;
   autoExternalConfig F; syntaxConfig F; bundleConfig F; targetConfig F;
   entryConfig F; dtsConfig F].

(** [F] holds what the policies compute for [userConfig]: every
    fragment is the value of its policy on the configuration as the user
    declared it, the warnings [w] are those of the auto-external
    policy. *)
Definition fragmentsOf `{Externals} (userConfig configPath : Value)
    (F : Fragments) (w : Log) : Prop :=
  ∃ rootPath,
    let pkgJson := readPackageJson rootPath in
    let output := JS.get userConfig "output" in
    let autoExtensionResult :=
      composeAutoExtensionConfig userConfig
        (JS.orDefault (JS.get userConfig "autoExtension") (VBool true))
        pkgJson in
    dirname configPath = inr rootPath
    ∧ composeFormatConfig (JS.get userConfig "format")
      = inr (formatConfig F)
    ∧ composeExternalsConfig (JS.get userConfig "format")
        (JS.get output "externals")
      = inr (externalsConfig F)
    ∧ autoExtensionConfig F = config autoExtensionResult
    ∧ writes
        (composeAutoExternalConfig
           (JS.orDefault (JS.get userConfig "autoExternal") (VBool true))
           pkgJson (JS.get output "externals"))
        (inr (autoExternalConfig F)) w
    ∧ composeSyntaxConfig (JS.get output "syntax") (JS.get output "target")
      = inr (syntaxConfig F)
    ∧ bundleConfig F
      = composeBundleConfig (jsExtension autoExtensionResult)
          (JS.get userConfig "bundle")
    ∧ composeTargetConfig (JS.get output "target") = inr (targetConfig F)
    ∧ writes
        (composeEntryConfig (JS.get (JS.get userConfig "source") "entry")
           (JS.get userConfig "bundle") rootPath)
        (inr (entryConfig F)) []
    ∧ writes
        (composeDtsConfig userConfig (dtsExtension autoExtensionResult))
        (inr (dtsConfig F)) [].


(** A value that is a plain object, or is [undefined] or [null]. *)
Definition plainOrUnset (v : Value) : bool := JS.nullish v || isObject v.

(** ** Vocabulary of the further properties *)

(** The output base of the files matched for one entry: their longest
    common path, or the root when there is none. *)
Definition outBaseOf `{Externals} (root : string)
    (resolvedEntryFiles : list string) : string :=
  match calcLongestCommonPath resolvedEntryFiles with
  | None => root
  | Some lcp => lcp
  end.

(** The name under which a matched file is entered: its path relative to
    the output base, without the extension. *)
Definition entryFileName `{Externals} (outBase file : string) : string :=
  let '(dir, name) := pathParse (pathRelative outBase file) in
  pathJoin dir name.

(** The assignments one entry key leads to, in the order of the matched
    files; none when the entry is refused or the glob fails. *)
Definition entryPairs `{Externals} (entries : Value) (root key : string)
    : list (string * Value) :=
  match entryFilesOf (JS.get entries key) with
  | Some patterns =>
      match glob patterns root with
      | inr files =>
          (λ file, (entryFileName (outBaseOf root files) file, VStr file))
            <$> files
      | inl _ => []
      end
  | None => []
  end.

(** One round of the loop of [composeEntryConfig], as a function of the
    value of the entry. *)
Definition resolveEntryValue `{Externals} (root : string)
    (resolvedEntries : list (string * Value)) (entry : Value)
    : M (list (string * Value)) :=
  match entryFilesOf entry with
  | None => throw EntryShape
  | Some entryFiles =>
      do resolvedEntryFiles <- lift (glob entryFiles root);
      if (length resolvedEntryFiles =? 0)%nat
      then throw (CannotFind resolvedEntryFiles)
      else
        let outBase :=
          match calcLongestCommonPath resolvedEntryFiles with
          | None => root
          | Some lcp => lcp
          end in
        ret (fold_left
               (λ acc file,
                  let '(dir, name) :=
                    pathParse (pathRelative outBase file) in
                  JS.setField (pathJoin dir name) (VStr file) acc)
               resolvedEntryFiles resolvedEntries)
  end.

(** The options handed to the declaration plugin of a fragment. *)
Definition dtsOptionsOf (fragment : Value) : Value :=
  match pluginsOf fragment with
  | VExt _ (options :: _) :: _ => options
  | _ => VUndefined
  end.

(** * Properties *)

(** ** Lists and strings *)



Lemma list_ascii_of_string_app (a b : string) :
  list_ascii_of_string (a +:+ b)
  = list_ascii_of_string a ++ list_ascii_of_string b.
Proof. induction a as [|c a IH]; simpl; [done|]. by rewrite <- IH. Qed.

Lemma list_ascii_of_string_inj (a b : string) :
  list_ascii_of_string a = list_ascii_of_string b → a = b.
Proof.
  intros Heq. rewrite <- (string_of_list_ascii_of_string a),
    <- (string_of_list_ascii_of_string b). congruence.
Qed.

Lemma prefixPattern_inj (a b : string) :
  prefixPattern a = prefixPattern b → a = b.
Proof.
  unfold prefixPattern. intros Heq.
  apply (f_equal list_ascii_of_string) in Heq.
  rewrite !list_ascii_of_string_app in Heq. simpl in Heq.
  injection Heq as Heq. apply app_inv_tail in Heq.
  by apply list_ascii_of_string_inj.
Qed.

#[local] Instance prefixRule_inj : Inj (=) (=) (λ dep, VRegExp (prefixPattern dep)).
Proof. intros a b Heq. simpl in Heq. apply prefixPattern_inj. congruence. Qed.

#[local] Instance VStr_inj : Inj (=) (=) VStr.
Proof. by intros a b [= ->]. Qed.

(** ** composeAutoExternalConfig *)

(** The names collected from the descriptor: list by list in the order of
    [depTypes], each list only when selected, the user's keys left out. *)
Lemma autoExternals_unfold (autoExternal : Value) (pkgJson : PkgJson)
    (userExternals : Value) :
  autoExternals autoExternal pkgJson userExternals
  = filter (λ name, notUserExternal userExternals name)
      ((if listSelected autoExternal "dependencies"
        then depNames (dependencies pkgJson) else [])
       ++ (if listSelected autoExternal "peerDependencies"
           then depNames (peerDependencies pkgJson) else [])
       ++ (if listSelected autoExternal "devDependencies"
           then depNames (devDependencies pkgJson) else [])).
Proof.
  unfold autoExternals, listSelected, notUserExternal. f_equal. simpl.
  unfold pkgField; simpl.
  destruct (JS.truthy _), (JS.truthy _), (JS.truthy _);
    destruct (dependencies pkgJson), (peerDependencies pkgJson),
      (devDependencies pkgJson); simpl; by rewrite ?app_nil_r, <- ?app_assoc.
Qed.

Lemma autoExternals_elem_of (autoExternal : Value) (pkgJson : PkgJson)
    (userExternals : Value) (name : string) :
  name ∈ autoExternals autoExternal pkgJson userExternals
  ↔ selectedDependency autoExternal pkgJson name
    ∧ name ∉ userExternalKeys userExternals.
Proof.
  rewrite autoExternals_unfold, list_elem_of_filter, !elem_of_app.
  unfold notUserExternal, JS.includes, selectedDependency, depTypes.
  rewrite negb_True, bool_decide_spec.
  split.
  - intros [Hno Hin]. split; [|done].
    destruct Hin as [Hin|[Hin|Hin]];
      [exists "dependencies"|exists "peerDependencies"
      |exists "devDependencies"];
      destruct (listSelected _ _) eqn:Hsel;
      try (by apply elem_of_nil in Hin);
      (split; [set_solver|split; [done|by unfold pkgField; simpl]]).
  - intros [(type & Htype & Hsel & Hin) Hno]. split; [done|].
    rewrite !elem_of_cons in Htype.
    destruct Htype as [->|[->|[->|Hnil]]];
      [..|by apply elem_of_nil in Hnil];
      rewrite Hsel; unfold pkgField in Hin; simpl in Hin; auto.
Qed.


Lemma externalOptions_true :
  externalOptions (VBool true)
  = [("dependencies", VBool true); ("peerDependencies", VBool true);
     ("devDependencies", VBool false)].
Proof. reflexivity. Qed.



(** C10: when [autoExternal] is exactly [true] the names come from
    [dependencies] and [peerDependencies] only, so the fragment is the
    same whatever [devDependencies] holds; a selection object that sets
    [devDependencies] to [true] adds that list. *)
Theorem autoExternal_true_leaves_devDependencies_out (pkgJson : PkgJson)
    (userExternals : Value) :
  autoExternals (VBool true) pkgJson userExternals
  = filter (λ name, notUserExternal userExternals name)
      (depNames (dependencies pkgJson)
       ++ depNames (peerDependencies pkgJson))
  ∧ (∀ dev,
       composeAutoExternalConfig (VBool true) (Some pkgJson) userExternals
       = composeAutoExternalConfig (VBool true)
           (Some {| pkgType := pkgType pkgJson;
                    dependencies := dependencies pkgJson;
                    peerDependencies := peerDependencies pkgJson;
                    devDependencies := dev |})
           userExternals)
  ∧ autoExternals (VObj [("devDependencies", VBool true)]) pkgJson
      userExternals
    = filter (λ name, notUserExternal userExternals name)
        (depNames (dependencies pkgJson)
         ++ depNames (peerDependencies pkgJson)
         ++ depNames (devDependencies pkgJson)).
Proof.
  assert (Htrue : ∀ pkg,
    autoExternals (VBool true) pkg userExternals
    = filter (λ name, notUserExternal userExternals name)
        (depNames (dependencies pkg) ++ depNames (peerDependencies pkg))).
  { intros pkg. rewrite autoExternals_unfold. unfold listSelected.
    rewrite externalOptions_true. simpl. by rewrite app_nil_r. }
  split; [apply Htrue|]. split.
  - intros dev. unfold composeAutoExternalConfig. simpl.
    by rewrite !Htrue.
  - by rewrite autoExternals_unfold.
Qed.

(** ** The prefix rule as a regular expression *)

Module RegExpFacts.
Import RegExp.

(** A character that is not a syntax character is read as itself. *)
Lemma parseGo_literal (c : ascii) (s : list ascii) (st : last)
    (top : frame) (stack : list frame) :
  syntaxChar c = false →
  parseGo (c :: s) st top stack = parseGo s Atom (push (Chr c) top) stack.
Proof.
  unfold syntaxChar. intros Hc. apply bool_decide_eq_false in Hc.
  simpl in Hc. rewrite !not_elem_of_cons in Hc.
  simpl.
  repeat match goal with
         | |- context [Ascii.eqb c ?x] =>
             destruct (Ascii.eqb_spec c x) as [->|_]; [tauto|]
         end.
  reflexivity.
Qed.

Lemma parseGo_literals (cs s : list ascii) (st : last) (top : frame)
    (stack : list frame) :
  Forall (λ c, syntaxChar c = false) cs →
  parseGo (cs ++ s) st top stack
  = parseGo s (match cs with [] => st | _ => Atom end)
      {| closed := closed top; terms := rev (Chr <$> cs) ++ terms top |}
      stack.
Proof.
  intros Hcs. revert st top.
  induction Hcs as [|c cs Hc _ IH]; intros st top.
  - by destruct top.
  - change ((c :: cs) ++ s) with (c :: (cs ++ s)).
    rewrite parseGo_literal, IH by done. simpl.
    rewrite <- app_assoc. by destruct cs.
Qed.

(** The terms of a sequence, written first to last. *)
Lemma seqOf_literals (cs : list ascii) (before : list re) (tail : re) :
  fold_left (λ acc t, Seq t acc) (rev (Chr <$> cs) ++ before) tail
  = fold_left (λ acc t, Seq t acc) before
      (foldr (λ c acc, Seq (Chr c) acc) tail cs).
Proof.
  revert tail. induction cs as [|c cs IH] using rev_ind; intros tail.
  - reflexivity.
  - rewrite fmap_app, rev_app_distr, foldr_app. simpl. apply IH.
Qed.

(** The syntax tree of a prefix rule whose name has no syntax
    character: the anchor, the characters of the name, the boundary
    group. *)
Lemma parse_prefixPattern (dep : string) :
  Forall (λ c, syntaxChar c = false) (list_ascii_of_string dep) →
  parse (prefixPattern dep)
  = Some (Seq Bol
            (foldr (λ c acc, Seq (Chr c) acc) (Seq boundaryGroup Empty)
               (list_ascii_of_string dep))).
Proof.
  intros Hdep. unfold parse, prefixPattern.
  rewrite !list_ascii_of_string_app.
  change (list_ascii_of_string "^") with ["^"%char].
  change (["^"%char] ++ ?l) with ("^"%char :: l).
  change (parseGo ("^"%char :: ?l) NoAtom emptyFrame [])
    with (parseGo l NoAtom (push Bol emptyFrame) []).
  rewrite parseGo_literals by done.
  generalize (match list_ascii_of_string dep with
              | [] => NoAtom
              | _ :: _ => Atom
              end).
  intros st. simpl closed. simpl terms.
  remember (rev (Chr <$> list_ascii_of_string dep) ++ [Bol]) as ts eqn:Hts.
  simpl. unfold closeFrame, seqOf. simpl. f_equal.
  subst ts. apply (seqOf_literals _ [Bol]).
Qed.

Lemma matchK_literals (cs : list ascii) (start : bool) (s : list ascii) :
  matchK (foldr (λ c acc, Seq (Chr c) acc) (Seq boundaryGroup Empty) cs)
    start s (λ _ _, true)
  = nameAtBoundary cs s.
Proof.
  revert start s. induction cs as [|n cs IH]; intros start s.
  - destruct s as [|c s]; simpl; [done|].
    rewrite !andb_true_r. by rewrite (Ascii.eqb_sym c "/"),
      (Ascii.eqb_sym c "\").
  - destruct s as [|c s]; simpl; [done|]. by rewrite IH.
Qed.

(** An anchored pattern matches at index 0 only. *)
Lemma search_anchored (r : re) (s : list ascii) :
  search (Seq Bol r) false s = false.
Proof. induction s as [|c s IH]; simpl; [done|]. exact IH. Qed.

(** A name without syntax characters gives a rule that accepts exactly
    the requests that are the name up to a boundary. *)
Lemma test_prefixPattern_literal (dep input : string) :
  Forall (λ c, syntaxChar c = false) (list_ascii_of_string dep) →
  test (prefixPattern dep) input
  = Some (nameAtBoundary (list_ascii_of_string dep)
            (list_ascii_of_string input)).
Proof.
  intros Hdep. unfold test. rewrite parse_prefixPattern by done.
  f_equal. destruct (list_ascii_of_string input) as [|c s] eqn:Hs.
  - simpl search. rewrite orb_false_r. apply matchK_literals.
  - simpl search. rewrite search_anchored, orb_false_r.
    apply matchK_literals.
Qed.

End RegExpFacts.

(** C3: the descriptor lists the dependency [lodash.merge]; the prefix
    rule computed for it is [^lodash.merge($|\/|\\)], in which the dot
    of the name stands for any character, so the rule accepts the request
    [lodashxmerge], which is not the name up to a boundary. *)
Theorem prefix_rule_of_dotted_name_accepts_other_names :
  ∃ fragment,
    composeAutoExternalConfig (VBool true) (Some Sample.dottedPkg)
      VUndefined []
    = (inr fragment, [])
    ∧ externalsOf fragment
      = [VRegExp (prefixPattern "lodash.merge"); VStr "lodash.merge"]
    ∧ prefixPattern "lodash.merge" = "^lodash.merge($|\/|\\)"
    ∧ RegExp.test (prefixPattern "lodash.merge") "lodashxmerge" = Some true
    ∧ nameAtBoundary (list_ascii_of_string "lodash.merge")
        (list_ascii_of_string "lodashxmerge") = false.
Proof. eexists. repeat split; vm_compute; reflexivity. Qed.

(** ** Property lists *)

Lemma assoc_setField (k k' : string) (v : Value) (l : list (string * Value)) :
  JS.assoc k (JS.setField k' v l)
  = if String.eqb k k' then Some v else JS.assoc k l.
Proof.
  induction l as [|[k0 v0] l IH]; simpl.
  - done.
  - destruct (String.eqb_spec k' k0) as [->|Hne]; simpl.
    + by destruct (String.eqb k k0).
    + rewrite IH. destruct (String.eqb_spec k k0) as [->|]; [|done].
      destruct (String.eqb_spec k0 k') as [->|]; done.
Qed.

Lemma assoc_app {A} (k : string) (l1 l2 : list (string * A)) :
  JS.assoc k (l1 ++ l2)
  = match JS.assoc k l1 with Some v => Some v | None => JS.assoc k l2 end.
Proof.
  induction l1 as [|[k0 v0] l1 IH]; simpl; [done|].
  by destruct (String.eqb k k0).
Qed.

Lemma assoc_None {A} (k : string) (l : list (string * A)) :
  k ∉ l.*1 → JS.assoc k l = None.
Proof.
  induction l as [|[k0 v0] l IH]; simpl; [done|].
  rewrite not_elem_of_cons. intros [Hne Hnot].
  destruct (String.eqb_spec k k0); [done|]. by apply IH.
Qed.

(** A spread property wins over the base; with distinct keys it is the
    property of the spread value. *)
Lemma assoc_spread (k : string) (base : list (string * Value)) (v : Value) :
  NoDup (JS.keys v) →
  JS.assoc k (JS.spread base v)
  = match JS.assoc k (JS.ownEntries v) with
    | Some x => Some x
    | None => JS.assoc k base
    end.
Proof.
  unfold JS.spread, JS.keys.
  induction (JS.ownEntries v) as [|[k0 v0] l IH] using rev_ind; intros Hnd.
  - done.
  - rewrite fmap_app in Hnd. apply NoDup_app in Hnd as (Hl & Hk0 & _).
    rewrite fold_left_app, assoc_app. simpl.
    rewrite assoc_setField, IH by done.
    destruct (String.eqb_spec k k0) as [->|Hne]; [|by destruct (JS.assoc k l)].
    rewrite assoc_None; [done|].
    intros Hin. apply (Hk0 _ Hin). simpl. by left.
Qed.

(** ** composeAutoExtensionConfig *)

(** C2: for every format, descriptor type and auto-extension flag the
    pair of extensions is the row of the decision table, and the js
    filename rule of the fragment is the user's rule when the user's
    [output.filename] has one and the computed [name] pattern
    otherwise. *)
Theorem autoExtension_follows_table (format : Format) (type : PkgType)
    (flag : bool) (libConfig autoExtension : Value)
    (pkgJson : option PkgJson) :
  JS.get libConfig "format" = VStr (formatName format) →
  default TypeAbsent (pkgType <$> pkgJson) = type →
  JS.truthy autoExtension = flag →
  NoDup (JS.keys (JS.get (JS.get libConfig "output") "filename")) →
  let result := composeAutoExtensionConfig libConfig autoExtension pkgJson in
  (∀ row, extensionTable format type flag = Some row →
          (jsExtension result, dtsExtension result) = row)
  ∧ (extensionTable format type flag = None →
     (format, type, flag) = (cjs, TypeAbsent, true))
  ∧ filenameJsOf (config result)
    = match JS.assoc "js"
              (JS.ownEntries
                 (JS.get (JS.get libConfig "output") "filename")) with
      | Some rule => rule
      | None => VStr ("[name]" +:+ jsExtension result)
      end.
Proof.
  intros Hformat Htype Hflag Hkeys result. subst result.
  unfold composeAutoExtensionConfig, getDefaultExtension.
  rewrite Hformat, Htype, Hflag.
  split; [|split].
  - intros row. by destruct format, type, flag; simpl; intros [= <-].
  - by destruct format, type, flag.
  - destruct (if negb flag then _ else _) as [js dts] eqn:Hext.
    unfold filenameJsOf. simpl.
    unfold JS.get at 1. simpl JS.ownEntries.
    rewrite assoc_spread by done. simpl.
    by destruct (JS.assoc "js" _).
Qed.

Lemma autoExtension_follows_table_witness :
  (jsExtension
     (composeAutoExtensionConfig Sample.unitWithFilename (VBool true)
        (Some Sample.pkg)),
   dtsExtension
     (composeAutoExtensionConfig Sample.unitWithFilename (VBool true)
        (Some Sample.pkg)))
  = (".mjs", ".d.mts")
  ∧ filenameJsOf
      (config
         (composeAutoExtensionConfig Sample.unitWithFilename (VBool true)
            (Some Sample.pkg)))
    = VStr "[name].js".
Proof.
  destruct (autoExtension_follows_table esm TypeCommonjs true
              Sample.unitWithFilename (VBool true) (Some Sample.pkg)
              eq_refl eq_refl eq_refl)
    as (Hrow & _ & Hjs).
  { vm_compute. repeat constructor; set_solver. }
  split; [exact (Hrow _ eq_refl)|exact Hjs].
Defined.

(** ** composeDtsConfig *)

(** The declaration plugin is invoked exactly when [dts] is neither
    [false] nor [undefined], with the five options computed from the
    unit. *)
Lemma composeDtsConfig_run (libConfig : Value) (dtsExtension : string)
    (log : Log) :
  ∃ fragment,
    composeDtsConfig libConfig dtsExtension log = (inr fragment, log)
    ∧ ((JS.get libConfig "dts" = VBool false
        ∨ JS.get libConfig "dts" = VUndefined)
       → pluginsOf fragment = [])
    ∧ (JS.get libConfig "dts" ≠ VBool false
       → JS.get libConfig "dts" ≠ VUndefined
       → ∃ options,
           pluginsOf fragment = [pluginDts options]
           ∧ JS.keys options
             = ["bundle"; "distPath"; "abortOnError"; "dtsExtension";
                "autoExternal"]
           ∧ JS.get options "dtsExtension" = VStr dtsExtension
           ∧ JS.get options "autoExternal" = JS.get libConfig "autoExternal").
Proof.
  unfold composeDtsConfig.
  destruct (JS.get libConfig "dts") as [| |[|]| | | | | | |] eqn:Hdts; simpl;
    eexists; (split; [reflexivity|]);
    (split; [try done; by intros [?|?]|]); try done;
    intros _ _; eexists; done.
Qed.

(** C7, as stated, fails: a unit that does not set [dts] has not
    disabled it, and no plugin is invoked for it. *)
Lemma dts_unset_invokes_no_plugin :
  ¬ (∀ fragment,
       composeDtsConfig Sample.unitWithoutDts ".d.ts" [] = (inr fragment, []) →
       (pluginsOf fragment ≠ []
        ↔ JS.get Sample.unitWithoutDts "dts" ≠ VBool false)).
Proof.
  intros Hclaim.
  apply (Hclaim (VObj []) eq_refl); done.
Qed.

(** C7: the declaration plugin is invoked for a unit if and only if its
    [dts] setting is neither [false] nor left unset; it then receives
    the options bundle, distPath, abortOnError, dtsExtension and
    autoExternal. *)
Theorem dts_plugin_invoked_iff_set_and_not_false (libConfig : Value)
    (dtsExtension : string) (log : Log) :
  ∃ fragment,
    composeDtsConfig libConfig dtsExtension log = (inr fragment, log)
    ∧ (pluginsOf fragment ≠ []
       ↔ JS.get libConfig "dts" ≠ VBool false
         ∧ JS.get libConfig "dts" ≠ VUndefined)
    ∧ ∀ plugin, plugin ∈ pluginsOf fragment →
        ∃ options,
          plugin = pluginDts options
          ∧ JS.keys options
            = ["bundle"; "distPath"; "abortOnError"; "dtsExtension";
               "autoExternal"]
          ∧ JS.get options "dtsExtension" = VStr dtsExtension
          ∧ JS.get options "autoExternal" = JS.get libConfig "autoExternal".
Proof.
  destruct (composeDtsConfig_run libConfig dtsExtension log)
    as (fragment & Hrun & Hoff & Hon).
  exists fragment. split; [done|]. split.
  - split.
    + intros Hplugins. split; intros Hdts; apply Hplugins, Hoff; auto.
    + intros [Hfalse Hundef].
      destruct (Hon Hfalse Hundef) as (options & -> & _). done.
  - intros plugin Hin.
    assert (Hset : JS.get libConfig "dts" ≠ VBool false
                   ∧ JS.get libConfig "dts" ≠ VUndefined).
    { split; intros Hdts; rewrite Hoff in Hin by auto;
        by apply elem_of_nil in Hin. }
    destruct Hset as [Hfalse Hundef].
    destruct (Hon Hfalse Hundef) as (options & Heq & Hopts).
    rewrite Heq in Hin. apply list_elem_of_singleton in Hin as ->.
    by exists options.
Qed.

Lemma dts_plugin_invoked_iff_set_and_not_false_witness :
  ∃ fragment options,
    composeDtsConfig Sample.unitWithDts ".d.ts" [] = (inr fragment, [])
    ∧ pluginDts options ∈ pluginsOf fragment.
Proof.
  destruct (dts_plugin_invoked_iff_set_and_not_false Sample.unitWithDts
              ".d.ts" [])
    as (fragment & Hrun & Hiff & Hopts).
  exists fragment.
  destruct (pluginsOf fragment) as [|plugin plugins] eqn:Hplugins.
  - exfalso. apply (proj2 Hiff); [|done]. by split; vm_compute.
  - destruct (Hopts plugin) as (options & -> & _); [by left|].
    exists options. split; [exact Hrun|by left].
Defined.

(** ** Environment assembly *)

Section Assembly.

Implicit Types (units : list (Format * Value)) (format : Format).

#[local] Instance formatName_inj : Inj (=) (=) formatName.
Proof. by intros [] [] Heq. Qed.

(** The counting pass. *)
Lemma formatCount_fold (l : list (Value * Value)) (acc : gmap string nat)
    (k : string) :
  fold_left
    (λ acc unit,
       let format := JS.toString unit.1 in
       <[format := default 0 (acc !! format) + 1]> acc) l acc !! k
  = let n := length (filter (λ unit, JS.toString unit.1 = k) l) in
    if decide (n = 0) then acc !! k else Some (default 0 (acc !! k) + n).
Proof.
  revert acc. induction l as [|[f c] l IH]; intros acc; [done|].
  simpl fold_left. rewrite IH. clear IH. simpl.
  rewrite filter_cons. simpl.
  destruct (decide (JS.toString f = k)) as [->|Hne].
  - rewrite lookup_insert_eq. simpl.
    destruct (decide (length _ = 0)) as [->|_]; f_equal; lia.
  - by rewrite lookup_insert_ne.
Qed.

Lemma filter_composedUnits units format :
  length (filter (λ unit, JS.toString unit.1 = formatName format)
            (composedUnits units))
  = occurrences format units.*1.
Proof.
  unfold occurrences, composedUnits.
  induction units as [|[g c] units IH]; [done|].
  rewrite !fmap_cons, !filter_cons. simpl.
  destruct (decide (formatName g = formatName format)) as [Heq|Hne].
  - apply (inj formatName) in Heq as ->.
    rewrite decide_True by done. simpl. by rewrite IH.
  - rewrite decide_False by congruence. done.
Qed.

Lemma formatCount_lookup units format :
  0 < occurrences format units.*1 →
  formatCount (composedUnits units) !! formatName format
  = Some (occurrences format units.*1).
Proof.
  intros Hpos. unfold formatCount.
  rewrite formatCount_fold, filter_composedUnits. simpl.
  rewrite lookup_empty. destruct (decide _); [lia|done].
Qed.

Lemma occurrences_app format (l1 l2 : list Format) :
  occurrences format (l1 ++ l2)
  = occurrences format l1 + occurrences format l2.
Proof. unfold occurrences. by rewrite filter_app, length_app. Qed.

Lemma occurrences_singleton format (g : Format) :
  occurrences format [g] = if decide (g = format) then 1 else 0.
Proof. unfold occurrences. rewrite filter_cons. by destruct (decide _). Qed.

Lemma occurrences_lookup format (formats : list Format) (i : nat) :
  formats !! i = Some format →
  occurrences format (take (S i) formats)
  = S (occurrences format (take i formats)).
Proof.
  intros Hi. rewrite (take_S_r _ _ _ Hi), occurrences_app.
  unfold occurrences at 2. rewrite filter_cons, decide_True by done.
  simpl. lia.
Qed.

Lemma occurrences_take_le format (formats : list Format) (i j : nat) :
  i ≤ j →
  occurrences format (take i formats) ≤ occurrences format (take j formats).
Proof.
  intros Hij. replace j with (i + (j - i)) by lia.
  rewrite <- take_take_drop, occurrences_app. lia.
Qed.

Lemma occurrences_take_total format (formats : list Format) (i : nat) :
  occurrences format (take i formats) ≤ occurrences format formats.
Proof.
  rewrite <- (take_drop i formats) at 2. rewrite occurrences_app. lia.
Qed.

(** Two units never get the same key. *)
Lemma expectedKey_distinct (formats : list Format) (i j : nat)
    (fi fj : Format) :
  i < j → formats !! i = Some fi → formats !! j = Some fj →
  expectedKey formats i fi ≠ expectedKey formats j fj.
Proof.
  intros Hij Hi Hj. unfold expectedKey.
  destruct (decide (fi = fj)) as [->|Hne].
  - assert (Hlt : occurrences fj (take i formats)
                  < occurrences fj (take j formats)).
    { pose proof (occurrences_lookup _ _ _ Hi).
      pose proof (occurrences_take_le fj formats (S i) j). lia. }
    assert (Htwo : 2 ≤ occurrences fj formats).
    { pose proof (occurrences_lookup _ _ _ Hj).
      pose proof (occurrences_take_total fj formats (S j)). lia. }
    rewrite !decide_False by lia.
    intros Heq. apply (inj (String.app _)) in Heq.
    apply (inj pretty) in Heq. lia.
  - intros Heq.
    apply (f_equal (λ s, match s with
                         | String c _ => Some c
                         | EmptyString => None
                         end)) in Heq.
    destruct fi, fj; try done;
      destruct (decide _), (decide _);
      cbv [formatName String.append] in Heq; discriminate.
Qed.

Lemma prefix_lookup_last {A} (p l : list A) (x : A) :
  (p ++ [x]) `prefix_of` l → l !! length p = Some x ∧ take (length p) l = p.
Proof.
  intros [r ->]. rewrite <- !app_assoc. simpl. split.
  - by rewrite list_lookup_middle.
  - by rewrite take_app_length.
Qed.

(** The state of the loop after the units of a prefix: the index of
    each format is its number of occurrences so far, and every unit of
    the prefix is found under its key. *)
Lemma assemble_invariant units (p : list (Format * Value)) :
  p `prefix_of` units →
  let state :=
    fold_left (assembleStep (formatCount (composedUnits units)))
      (composedUnits p) (formatIndex0, ∅) in
  (∀ format, state.1 !! formatName format
             = Some (Fin (occurrences format p.*1)))
  ∧ (∀ j format c, p !! j = Some (format, c) →
       state.2 !! expectedKey units.*1 j format = Some c).
Proof.
  induction p as [|[f c] p IH] using rev_ind; intros Hprefix.
  - split; [by intros []|]. intros j format c Hj. done.
  - assert (Hp : p `prefix_of` units).
    { etrans; [|exact Hprefix]. by apply prefix_app_r. }
    destruct (IH Hp) as [Hidx Henv]. clear IH.
    destruct (prefix_lookup_last _ _ _ Hprefix) as [Hlast Htake].
    assert (Hf : units.*1 !! length p = Some f).
    { by rewrite list_lookup_fmap, Hlast. }
    assert (Hpos : 0 < occurrences f units.*1).
    { pose proof (occurrences_lookup _ _ _ Hf).
      pose proof (occurrences_take_total f units.*1 (S (length p))). lia. }
    unfold composedUnits. rewrite fmap_app, fold_left_app. simpl.
    fold (composedUnits p).
    destruct (fold_left _ (composedUnits p) _) as [idx env] eqn:Hstate.
    simpl in Hidx, Henv. unfold assembleStep. simpl.
    rewrite formatCount_lookup, Hidx by done. simpl.
    assert (Hkey :
      (if bool_decide (Some (occurrences f units.*1) = Some 1)
       then formatName f
       else formatName f +:+ pretty (occurrences f p.*1))
      = expectedKey units.*1 (length p) f).
    { unfold expectedKey.
      rewrite <- fmap_take, Htake.
      destruct (decide (occurrences f units.*1 = 1)) as [->|Hne].
      - by rewrite bool_decide_eq_true_2.
      - rewrite bool_decide_eq_false_2; [done|]. by intros [= ?]. }
    rewrite Hkey. clear Hkey. split.
    + intros format. rewrite fmap_app, occurrences_app.
      change ([(f, c)].*1) with [f]. rewrite occurrences_singleton.
      destruct (decide (f = format)) as [->|Hne].
      * by rewrite lookup_insert_eq.
      * rewrite lookup_insert_ne by (intros Heq; by apply (inj _) in Heq).
        rewrite Hidx. do 2 f_equal. lia.
    + intros j format c' Hj.
      destruct (decide (j = length p)) as [->|Hne].
      * rewrite list_lookup_middle in Hj by done.
        injection Hj as <- <-. by rewrite lookup_insert_eq.
      * assert (Hlt : j < length p).
        { apply lookup_lt_Some in Hj. rewrite length_app in Hj.
          simpl in Hj. lia. }
        rewrite lookup_app_l in Hj by done.
        rewrite lookup_insert_ne; [by apply Henv|].
        apply not_eq_sym, expectedKey_distinct; [done| |done].
        rewrite list_lookup_fmap.
        destruct Hp as [r ->]. by rewrite lookup_app_l, Hj.
Qed.

End Assembly.

(** C4: the unit at index [i] of the declared list, of format [format],
    is found in the environment map under the bare format name when that
    format occurs once in the list, and otherwise under the name followed
    by the zero-based count of earlier units of that format; the formats
    esm, esm, cjs give the keys esm0, esm1 and cjs. *)
Theorem environment_keys (units : list (Format * Value)) :
  (∀ i format c,
     units !! i = Some (format, c) →
     assembleEnvironments (composedUnits units)
       !! expectedKey units.*1 i format = Some c)
  ∧ (∀ c1 c2 c3,
       assembleEnvironments
         (composedUnits [(esm, c1); (esm, c2); (cjs, c3)])
       = <["cjs" := c3]> (<["esm1" := c2]> (<["esm0" := c1]> ∅))).
Proof.
  split.
  - intros i format c Hi. unfold assembleEnvironments.
    by apply (assemble_invariant units units).
  - intros c1 c2 c3. by vm_compute.
Qed.

Lemma environment_keys_witness :
  assembleEnvironments
    (composedUnits [(esm, VNum 1); (umd, VNum 2); (esm, VNum 3)])
    !! "esm1" = Some (VNum 3).
Proof.
  exact (proj1 (environment_keys [(esm, VNum 1); (umd, VNum 2); (esm, VNum 3)])
           2 esm (VNum 3) eq_refl).
Defined.

(** ** The composition monad *)

Lemma writes_ret {A} (a : A) : writes (ret a) (inr a) [].
Proof. intros log. unfold ret. by rewrite app_nil_r. Qed.

Lemma writes_throw {A} (e : Error) : writes (throw (A := A) e) (inl e) [].
Proof. intros log. unfold throw. by rewrite app_nil_r. Qed.

Lemma writes_lift {A} (r : Error + A) : writes (lift r) r [].
Proof. destruct r; [apply writes_throw|apply writes_ret]. Qed.

Lemma writes_warn (line : string) : writes (warn line) (inr tt) [line].
Proof. by intros log. Qed.

Lemma writes_bind {A B} (c : M A) (k : A → M B) (a : A) (w1 : Log)
    (r : Error + B) (w2 : Log) :
  writes c (inr a) w1 → writes (k a) r w2 → writes (bind c k) r (w1 ++ w2).
Proof.
  intros Hc Hk log. unfold bind. rewrite Hc, Hk. by rewrite app_assoc.
Qed.

Lemma writes_bind_throw {A B} (c : M A) (k : A → M B) (e : Error) (w : Log) :
  writes c (inl e) w → writes (bind c k) (inl e) w.
Proof. intros Hc log. unfold bind. by rewrite Hc. Qed.


Lemma steady_ret {A} (a : A) : steady (ret a).
Proof. eexists _, _. apply writes_ret. Qed.



Lemma steady_bind {A B} (c : M A) (k : A → M B) :
  steady c → (∀ a, steady (k a)) → steady (bind c k).
Proof.
  intros ([e|a] & w1 & Hc) Hk.
  - eexists _, _. by apply writes_bind_throw.
  - destruct (Hk a) as (r & w2 & Hka).
    eexists _, _. by eapply writes_bind.
Qed.

Lemma steady_forOf {A S} (l : list A) (body : S → A → M S) (s : S) :
  (∀ s x, steady (body s x)) → steady (forOf l body s).
Proof.
  intros Hbody. revert s. induction l as [|x l IH]; intros s; simpl.
  - apply steady_ret.
  - apply steady_bind; [apply Hbody|apply IH].
Qed.


Lemma silent_ret {A} (a : A) : silent (ret a).
Proof. eexists. apply writes_ret. Qed.

Lemma silent_throw {A} (e : Error) : silent (throw (A := A) e).
Proof. eexists. apply writes_throw. Qed.

Lemma silent_lift {A} (r : Error + A) : silent (lift r).
Proof. eexists. apply writes_lift. Qed.

Lemma silent_bind {A B} (c : M A) (k : A → M B) :
  silent c → (∀ a, silent (k a)) → silent (bind c k).
Proof.
  intros ([e|a] & Hc) Hk.
  - eexists. by apply writes_bind_throw.
  - destruct (Hk a) as (r & Hka).
    eexists. by apply (writes_bind c k a [] r []).
Qed.

Lemma silent_forOf {A S} (l : list A) (body : S → A → M S) (s : S) :
  (∀ s x, silent (body s x)) → silent (forOf l body s).
Proof.
  intros Hbody. revert s. induction l as [|x l IH]; intros s; simpl.
  - apply silent_ret.
  - apply silent_bind; [apply Hbody|apply IH].
Qed.


Lemma forOf_app {A S} (l1 l2 : list A) (body : S → A → M S) (s : S)
    (log : Log) :
  forOf (l1 ++ l2) body s log
  = match forOf l1 body s log with
    | (inl e, log') => (inl e, log')
    | (inr s', log') => forOf l2 body s' log'
    end.
Proof.
  revert s log. induction l1 as [|x l1 IH]; intros s log; simpl; [done|].
  unfold bind. destruct (body s x log) as [[e|s'] log']; [done|]. apply IH.
Qed.

(** ** Entry resolution *)

Section EntryFacts.

Context `{Externals}.

(** An entry whose patterns match no file ends the resolution with the
    error [CannotFind] of the empty list of matches. *)
Lemma resolveEntry_no_match (entries : Value) (root : string)
    (resolved : list (string * Value)) (key : string)
    (patterns : list Value) (log : Log) :
  entryFilesOf (JS.get entries key) = Some patterns →
  glob patterns root = inr [] →
  resolveEntry entries root resolved key log = (inl (CannotFind []), log).
Proof.
  intros Hfiles Hglob. unfold resolveEntry. rewrite Hfiles.
  unfold bind, lift. by rewrite Hglob.
Qed.

(** C6: in bundleless mode the resolution of the entries stops at the
    first key whose patterns match no file, with an error; the message of
    that error is the text [Cannot find ] followed by the empty list of
    matches, and so holds neither the key nor its patterns. *)
Theorem entry_without_files_fails_without_naming_key (entries : Value)
    (root : string) (before after : list string) (key : string)
    (patterns : list Value) (resolved : list (string * Value))
    (log log' : Log) :
  JS.truthy entries = true →
  JS.keys entries = before ++ key :: after →
  forOf before (resolveEntry entries root) [] log = (inr resolved, log') →
  entryFilesOf (JS.get entries key) = Some patterns →
  glob patterns root = inr [] →
  ∃ e,
    composeEntryConfig entries (VBool false) root log = (inl e, log')
    ∧ message e = "Cannot find ".
Proof.
  intros Hentries Hkeys Hbefore Hfiles Hglob.
  exists (CannotFind []). split; [|done].
  unfold composeEntryConfig. rewrite Hentries. simpl.
  unfold bind at 1. rewrite Hkeys, forOf_app, Hbefore. simpl.
  unfold bind at 1.
  by rewrite (resolveEntry_no_match _ _ _ _ patterns).
Qed.

Lemma silent_resolveEntry (entries : Value) (root : string)
    (resolved : list (string * Value)) (key : string) :
  silent (resolveEntry entries root resolved key).
Proof.
  unfold resolveEntry. destruct (entryFilesOf _); [|apply silent_throw].
  apply silent_bind; [apply silent_lift|]. intros files.
  destruct (length files =? 0)%nat; [apply silent_throw|apply silent_ret].
Qed.

Lemma silent_composeEntryConfig (entries bundle : Value) (root : string) :
  silent (composeEntryConfig entries bundle root).
Proof.
  unfold composeEntryConfig.
  destruct (negb (JS.truthy entries)); [apply silent_ret|].
  destruct (negb (JS.isFalse bundle)); [apply silent_ret|].
  apply silent_bind; [|intros; apply silent_ret].
  apply silent_forOf. intros. apply silent_resolveEntry.
Qed.

End EntryFacts.

Lemma entry_without_files_fails_without_naming_key_witness :
  ∃ e,
    composeEntryConfig (H := Sample.externals)
      (VObj [("index", VStr "lib/*.ts")]) (VBool false) "/proj" []
    = (inl e, [])
    ∧ message e = "Cannot find ".
Proof.
  apply (entry_without_files_fails_without_naming_key
           (H := Sample.externals) (VObj [("index", VStr "lib/*.ts")])
           "/proj" [] [] "index" [VStr "lib/*.ts"] [] [] []);
    reflexivity.
Defined.

(** ** The fragments of a library unit *)

Lemma writes_composeAutoExternalConfig_unread (autoExternal : Value)
    (userExternals : Value) :
  writes (composeAutoExternalConfig autoExternal None userExternals)
    (inr (VObj []))
    (if JS.truthy autoExternal then [autoExternalWarning] else []).
Proof.
  intros log. unfold composeAutoExternalConfig.
  destruct (JS.truthy autoExternal); simpl.
  - reflexivity.
  - unfold ret. by rewrite app_nil_r.
Qed.

(** The auto-external policy never throws. *)
Lemma composeAutoExternalConfig_total (autoExternal : Value)
    (pkgJson : option PkgJson) (userExternals : Value) :
  ∃ fragment w,
    writes (composeAutoExternalConfig autoExternal pkgJson userExternals)
      (inr fragment) w.
Proof.
  destruct pkgJson as [pkgJson|].
  - unfold composeAutoExternalConfig.
    destruct (negb (JS.truthy autoExternal));
      eexists _, []; apply writes_ret.
  - eexists _, _. apply writes_composeAutoExternalConfig_unread.
Qed.

(** Neither does the declaration policy, which writes nothing. *)
Lemma composeDtsConfig_total (libConfig : Value) (dtsExtension : string) :
  ∃ fragment, writes (composeDtsConfig libConfig dtsExtension) (inr fragment) [].
Proof.
  unfold composeDtsConfig.
  destruct (JS.isFalse _ || JS.isUndefined _); eexists; apply writes_ret.
Qed.

Section LibraryFacts.

Context `{Externals}.

(** When every policy yields its fragment, the library configuration is
    their merge in the order of [fragmentList]. *)
Lemma composeLibRsbuildConfig_fragments (userConfig configPath : Value)
    (F : Fragments) (w : Log) :
  fragmentsOf userConfig configPath F w →
  writes (composeLibRsbuildConfig userConfig configPath)
    (inr (mergeRsbuildConfig (fragmentList F))) w.
Proof.
  intros (rootPath & Hdir & Hformat & Hexternals & Hextension & Hauto
          & Hsyntax & Hbundle & Htarget & Hentry & Hdts) log.
  unfold composeLibRsbuildConfig, bind, lift, ret.
  rewrite Hdir, Hformat, Hexternals, Htarget, Hsyntax, Hauto, Hentry, Hdts.
  simpl. rewrite !app_nil_r. unfold fragmentList.
  by rewrite Hextension, Hbundle.
Qed.

(** Whenever the library configuration is returned, every policy has
    yielded its fragment. *)
Lemma composeLibRsbuildConfig_inv (userConfig configPath : Value)
    (libRsbuildConfig : Value) (log log' : Log) :
  composeLibRsbuildConfig userConfig configPath log
  = (inr libRsbuildConfig, log') →
  ∃ F w,
    fragmentsOf userConfig configPath F w
    ∧ libRsbuildConfig = mergeRsbuildConfig (fragmentList F)
    ∧ log' = log ++ w.
Proof.
  unfold composeLibRsbuildConfig, bind, lift, throw, ret.
  destruct (dirname configPath) as [e|rootPath] eqn:Hdir; [done|].
  destruct (composeFormatConfig _) as [e|format] eqn:Hformat; [done|].
  destruct (composeExternalsConfig _ _) as [e|externals] eqn:Hexternals;
    [done|].
  destruct (composeTargetConfig _) as [e|target] eqn:Htarget; [done|].
  destruct (composeSyntaxConfig _ _) as [e|syntax] eqn:Hsyntax; [done|].
  destruct (composeAutoExternalConfig_total
              (JS.orDefault (JS.get userConfig "autoExternal") (VBool true))
              (readPackageJson rootPath)
              (JS.get (JS.get userConfig "output") "externals"))
    as (autoExternal & w & Hauto).
  rewrite Hauto.
  destruct (silent_composeEntryConfig
              (JS.get (JS.get userConfig "source") "entry")
              (JS.get userConfig "bundle") rootPath) as (entry & Hentry).
  rewrite Hentry. destruct entry as [e|entry]; [done|].
  destruct (composeDtsConfig_total userConfig
              (dtsExtension
                 (composeAutoExtensionConfig userConfig
                    (JS.orDefault (JS.get userConfig "autoExtension")
                       (VBool true))
                    (readPackageJson rootPath)))) as (dts & Hdts).
  rewrite Hdts. rewrite !app_nil_r. intros [= <- <-].
  eexists {| formatConfig := format; externalsConfig := externals;
             autoExternalConfig := autoExternal; syntaxConfig := syntax;
             targetConfig := target; entryConfig := entry;
             dtsConfig := dts |}, w.
  split; [|done]. exists rootPath. simpl. by repeat split.
Qed.




End LibraryFacts.

(** ** The reset of the user's configuration *)

Lemma get_setField (l : list (string * Value)) (k k' : string) (x : Value) :
  JS.get (VObj (JS.setField k x l)) k'
  = if String.eqb k' k then x else JS.get (VObj l) k'.
Proof.
  unfold JS.get. simpl. rewrite assoc_setField.
  by destruct (String.eqb k' k).
Qed.

Lemma assoc_deleteField (k k' : string) (l : list (string * Value)) :
  JS.assoc k' (JS.deleteField k l)
  = if String.eqb k k' then None else JS.assoc k' l.
Proof.
  unfold JS.deleteField. induction l as [|[k0 v0] l IH].
  - simpl. by destruct (String.eqb k k').
  - rewrite filter_cons. simpl negb.
    destruct (decide _) as [Hkeep|Hdrop]; simpl; rewrite IH.
    + apply negb_prop_elim, Is_true_false in Hkeep.
      apply String.eqb_neq in Hkeep.
      destruct (String.eqb_spec k k') as [->|Hne];
        destruct (String.eqb_spec k' k0) as [->|Hne']; done.
    + assert (Heq : String.eqb k k0 = true).
      { destruct (String.eqb k k0); [done|]. by destruct Hdrop. }
      apply String.eqb_eq in Heq as <-.
      destruct (String.eqb_spec k k') as [->|Hne]; [done|].
      by rewrite (proj2 (String.eqb_neq k' k)).
Qed.

(** The fields of the configuration after the reset. *)
Lemma resetUserConfig_get (fields : list (string * Value)) (k : string) :
  JS.get (resetUserConfig (VObj fields)) k
  = if String.eqb k "output" then
      JS.deleteProp (JS.coalesce (JS.get (VObj fields) "output") (VObj []))
        "externals"
    else if String.eqb k "source" then
      JS.setProp (JS.coalesce (JS.get (VObj fields) "source") (VObj []))
        "entry" (VObj [])
    else JS.get (VObj fields) k.
Proof.
  unfold resetUserConfig. cbv zeta. cbn [JS.setProp].
  rewrite (get_setField fields "source" "source"), String.eqb_refl.
  cbn [JS.setProp].
  rewrite (get_setField _ "source" "output").
  change (String.eqb "output" "source") with false. cbv iota.
  rewrite (get_setField _ "source" "output").
  change (String.eqb "output" "source") with false. cbv iota.
  cbn [JS.setProp].
  rewrite (get_setField _ "output" "output"), String.eqb_refl.
  cbn [JS.setProp].
  rewrite !get_setField.
  destruct (String.eqb k "output"); [done|].
  by destruct (String.eqb k "source").
Qed.

Lemma reset_source_entry (source : Value) :
  plainOrUnset source = true →
  JS.get (JS.setProp (JS.coalesce source (VObj [])) "entry" (VObj [])) "entry"
  = VObj []
  ∧ ∀ k, k ≠ "entry" →
      JS.get (JS.setProp (JS.coalesce source (VObj [])) "entry" (VObj [])) k
      = JS.get source k.
Proof.
  destruct source; try done; intros _; unfold JS.coalesce; simpl JS.nullish;
    cbv iota; cbn [JS.setProp]; (split; [by rewrite get_setField|]);
    intros k Hk; rewrite get_setField;
    by rewrite (proj2 (String.eqb_neq k "entry")).
Qed.

Lemma reset_output_externals (output : Value) :
  plainOrUnset output = true →
  ("externals"
     ∉ JS.keys (JS.deleteProp (JS.coalesce output (VObj [])) "externals"))
  ∧ ∀ k, k ≠ "externals" →
      JS.get (JS.deleteProp (JS.coalesce output (VObj [])) "externals") k
      = JS.get output k.
Proof.
  assert (Hkeys : ∀ fields,
            "externals" ∉ (JS.deleteField "externals" fields).*1).
  { intros fields Hin. apply list_elem_of_fmap in Hin as ([k v] & -> & Hin).
    apply list_elem_of_filter in Hin as [Hne _]. simpl in Hne.
    by rewrite String.eqb_refl in Hne. }
  assert (Hget : ∀ fields k, k ≠ "externals" →
            JS.get (VObj (JS.deleteField "externals" fields)) k
            = JS.get (VObj fields) k).
  { intros fields k Hk. unfold JS.get. simpl. rewrite assoc_deleteField.
    by rewrite (proj2 (String.eqb_neq "externals" k)). }
  destruct output; try done; intros _; unfold JS.coalesce; simpl JS.nullish;
    cbv iota; cbn [JS.deleteProp]; (split; [apply Hkeys|]);
    intros k Hk; by rewrite Hget.
Qed.

(** ** The composed configuration of a unit *)

Section UnitFacts.

Context `{Externals}.

(** C1: the configuration composed for a library unit is the merge of
    three layers, lowest precedence first: the internal defaults, the
    merge of the nine computed fragments in their order, and the user's
    configuration; in the user's layer the entry mapping has been reset
    to an empty object and the externals removed, all else being as the
    user declared it. *)
Theorem composed_config_is_layered_merge
    (sharedRsbuildConfig configPath libConfig : Value)
    (fields : list (string * Value)) :
  let userConfig := mergeRsbuildConfig [sharedRsbuildConfig; libConfig] in
  userConfig = VObj fields →
  plainOrUnset (JS.get userConfig "source") = true →
  plainOrUnset (JS.get userConfig "output") = true →
  (∀ F w,
     fragmentsOf userConfig configPath F w →
     writes (composeUnit sharedRsbuildConfig configPath libConfig)
       (inr (JS.get libConfig "format",
             mergeRsbuildConfig
               [createInternalRsbuildConfig;
                mergeRsbuildConfig (fragmentList F);
                omitDeep (resetUserConfig userConfig) omittedKeys])) w)
  ∧ (∀ unit log log',
       composeUnit sharedRsbuildConfig configPath libConfig log
       = (inr unit, log') →
       ∃ F w,
         fragmentsOf userConfig configPath F w
         ∧ log' = log ++ w
         ∧ unit
           = (JS.get libConfig "format",
              mergeRsbuildConfig
                [createInternalRsbuildConfig;
                 mergeRsbuildConfig (fragmentList F);
                 omitDeep (resetUserConfig userConfig) omittedKeys]))
  ∧ JS.get (JS.get (resetUserConfig userConfig) "source") "entry" = VObj []
  ∧ ("externals" ∉ JS.keys (JS.get (resetUserConfig userConfig) "output"))
  ∧ (∀ k, k ≠ "source" → k ≠ "output" →
          JS.get (resetUserConfig userConfig) k = JS.get userConfig k)
  ∧ (∀ k, k ≠ "entry" →
          JS.get (JS.get (resetUserConfig userConfig) "source") k
          = JS.get (JS.get userConfig "source") k)
  ∧ (∀ k, k ≠ "externals" →
          JS.get (JS.get (resetUserConfig userConfig) "output") k
          = JS.get (JS.get userConfig "output") k).
Proof.
  intros userConfig Hobj Hsource Houtput.
  split; [|split].
  - intros F w HF log. unfold composeUnit, bind. fold userConfig.
    by rewrite (composeLibRsbuildConfig_fragments _ _ _ _ HF).
  - intros unit log log'. unfold composeUnit, bind, ret. fold userConfig.
    destruct (composeLibRsbuildConfig userConfig configPath log)
      as [[e|libRsbuildConfig] log1] eqn:Hlib; [done|].
    intros [= <- <-].
    apply composeLibRsbuildConfig_inv in Hlib as (F & w & HF & -> & ->).
    by exists F, w.
  - rewrite Hobj in Hsource, Houtput |- *.
    destruct (reset_source_entry _ Hsource) as [Hentry Hsrc].
    destruct (reset_output_externals _ Houtput) as [Hext Hout].
    rewrite !resetUserConfig_get. simpl String.eqb. cbv iota.
    repeat split; try done.
    intros k Hsrc' Hout'. rewrite resetUserConfig_get.
    rewrite (proj2 (String.eqb_neq k "output")) by done.
    by rewrite (proj2 (String.eqb_neq k "source")).
Qed.

End UnitFacts.

Lemma composed_config_is_layered_merge_witness :
  JS.get
    (JS.get
       (resetUserConfig
          (Sample.merge
             [VObj [("output", VObj [("externals", Sample.userExternals)])];
              Sample.lib "esm"]))
       "source") "entry"
  = VObj [].
Proof.
  exact (proj1 (proj2 (proj2
    (composed_config_is_layered_merge (H := Sample.externals)
       (VObj [("output", VObj [("externals", Sample.userExternals)])])
       (VStr "/proj/rslib.config.ts") (Sample.lib "esm") _
       eq_refl eq_refl eq_refl)))).
Defined.

(** ** An unreadable package descriptor *)

Section ManifestFacts.

Context (E : Externals).



End ManifestFacts.



(** ** Determinism *)


(** ** The units of a root configuration *)

Lemma mapM_inv {A B} (f : A → M B) (l : list A) (ys : list B)
    (log log' : Log) :
  mapM f l log = (inr ys, log') →
  Forall2 (λ x y, ∃ log1 log2, f x log1 = (inr y, log2)) l ys.
Proof.
  revert ys log. induction l as [|x l IH]; intros ys log; simpl.
  - intros [= <- _]. constructor.
  - unfold bind at 1. destruct (f x log) as [[e|y] log1] eqn:Hfx; [done|].
    unfold bind at 1.
    destruct (mapM f l log1) as [[e|ys'] log2] eqn:Hrest; [done|].
    intros [= <- <-]. constructor; [by exists log, log1|by eapply IH].
Qed.

(** Every configuration that [composeCreateRsbuildConfig] returns is the
    one composed for the library unit at the same place of [lib]. *)
Lemma composeCreateRsbuildConfig_units `{Externals}
    (rslibConfig path : Value) (units : list (Value * Value))
    (log log' : Log) :
  composeCreateRsbuildConfig rslibConfig path log = (inr units, log') →
  ∃ libConfigs,
    JS.get rslibConfig "lib" = VArr libConfigs
    ∧ Forall2
        (λ libConfig unit,
           ∃ log1 log2,
             composeUnit
               (VObj (JS.deleteField "lib" (JS.ownEntries rslibConfig)))
               (JS.coalesce path
                  (JS.get (JS.get rslibConfig "_privateMeta")
                     "configFilePath"))
               libConfig log1
             = (inr unit, log2))
        libConfigs units.
Proof.
  unfold composeCreateRsbuildConfig.
  destruct (negb (JS.truthy _)); [done|].
  destruct (JS.get rslibConfig "lib") as [| | | | | | | |libConfigs|];
    try done.
  intros Hrun. exists libConfigs. split; [done|]. by eapply mapM_inv.
Qed.

(** * Further properties of config.ts *)

(** ** Config file discovery *)

Lemma arrayFind_Some {A} (p : A → bool) (l : list A) (x : A) :
  arrayFind p l = Some x
  ↔ ∃ i, l !! i = Some x ∧ p x = true
         ∧ ∀ j y, j < i → l !! j = Some y → p y = false.
Proof.
  induction l as [|y l IH]; simpl.
  - split; [done|]. by intros (i & Hi & _).
  - destruct (p y) eqn:Hy.
    + split.
      * intros [= <-]. exists 0. repeat split; [done|]. intros j z Hj. lia.
      * intros ([|i] & Hi & Hx & Hbefore); [by injection Hi as ->|].
        specialize (Hbefore 0 y). rewrite Hbefore in Hy; [done|lia|done].
    + rewrite IH. split.
      * intros (i & Hi & Hx & Hbefore). exists (S i). repeat split; [done..|].
        intros [|j] z Hj Hz; [by injection Hz as <-|].
        apply (Hbefore j); [lia|done].
      * intros ([|i] & Hi & Hx & Hbefore).
        -- injection Hi as ->. congruence.
        -- exists i. repeat split; [done..|]. intros j z Hj Hz.
           apply (Hbefore (S j)); [lia|done].
Qed.

Lemma arrayFind_None {A} (p : A → bool) (l : list A) :
  arrayFind p l = None ↔ ∀ x, x ∈ l → p x = false.
Proof.
  induction l as [|y l IH]; simpl.
  - split; [|done]. intros _ x Hx. by apply elem_of_nil in Hx.
  - destruct (p y) eqn:Hy.
    + split; [done|]. intros Hall. rewrite Hall in Hy; [done|by left].
    + rewrite IH. split.
      * intros Hall x Hx. apply elem_of_cons in Hx as [->|Hx]; auto.
      * intros Hall x Hx. apply Hall. by right.
Qed.

Section ConfigDiscovery.

Context `{ConfigFiles}.

Lemma searchDefaultConfig_inr (root : string) (log : Log) (file : string)
    (log' : Log) :
  searchDefaultConfig root log = (inr file, log') →
  log' = log
  ∧ arrayFind existsSync
      ((λ ext, join root DEFAULT_CONFIG_NAME +:+ ext) <$> DEFAULT_EXTENSIONS)
    = Some file.
Proof.
  unfold searchDefaultConfig, findConfig.
  destruct (arrayFind _ _) as [found|]; [|done].
  destruct (negb _); [|done]. by intros [= <- <-].
Qed.

(** The path [resolveConfigPath] returns is that of a file that exists:
    the custom file or a candidate of the default search. *)
Theorem resolveConfigPath_returns_existing_file (root : string)
    (customConfig : option string) (log : Log) (file : string) (log' : Log) :
  resolveConfigPath root customConfig log = (inr file, log') →
  existsSync file = true.
Proof.
  assert (Hsearch : ∀ log0,
            searchDefaultConfig root log0 = (inr file, log') →
            existsSync file = true).
  { intros log0 Hrun. apply searchDefaultConfig_inr in Hrun as [_ Hfind].
    by apply arrayFind_Some in Hfind as (i & _ & Hexists & _). }
  unfold resolveConfigPath.
  destruct customConfig as [custom|]; [|apply Hsearch].
  destruct (negb _); [|apply Hsearch].
  destruct (existsSync (if isAbsolute custom then _ else _)) eqn:Hcustom;
    [|apply Hsearch].
  by intros [= <- _].
Qed.

(** When no usable custom file is named, the file returned is the default
    name with the first extension of [DEFAULT_EXTENSIONS], in their
    order, under which a file exists. *)
Theorem resolveConfigPath_first_extension_wins (root : string)
    (customConfig : option string) (log : Log) (file : string) (log' : Log) :
  (∀ custom, customConfigPathOf root customConfig = Some custom →
             existsSync custom = false) →
  resolveConfigPath root customConfig log = (inr file, log') →
  ∃ i ext,
    DEFAULT_EXTENSIONS !! i = Some ext
    ∧ file = join root DEFAULT_CONFIG_NAME +:+ ext
    ∧ ∀ j earlier,
        j < i → DEFAULT_EXTENSIONS !! j = Some earlier →
        existsSync (join root DEFAULT_CONFIG_NAME +:+ earlier) = false.
Proof.
  intros Hcustom.
  assert (Hsearch : ∀ log0,
            searchDefaultConfig root log0 = (inr file, log') →
            ∃ i ext,
              DEFAULT_EXTENSIONS !! i = Some ext
              ∧ file = join root DEFAULT_CONFIG_NAME +:+ ext
              ∧ ∀ j earlier,
                  j < i → DEFAULT_EXTENSIONS !! j = Some earlier →
                  existsSync (join root DEFAULT_CONFIG_NAME +:+ earlier)
                  = false).
  { intros log0 Hrun. apply searchDefaultConfig_inr in Hrun as [_ Hfind].
    apply arrayFind_Some in Hfind as (i & Hi & _ & Hbefore).
    rewrite list_lookup_fmap in Hi.
    destruct (DEFAULT_EXTENSIONS !! i) as [ext|] eqn:Hext; [|done].
    injection Hi as <-. exists i, ext. repeat split; [done|].
    intros j earlier Hj Hearlier. apply (Hbefore j); [done|].
    by rewrite list_lookup_fmap, Hearlier. }
  unfold resolveConfigPath, customConfigPathOf in *.
  destruct customConfig as [custom|]; [|apply Hsearch].
  destruct (negb _); [|apply Hsearch].
  rewrite (Hcustom _ eq_refl). apply Hsearch.
Qed.

(** [resolveConfigPath] fails exactly when the custom file, if one is
    named, does not exist and no candidate of the default search exists;
    the error names the default config name and the root. *)
Theorem resolveConfigPath_fails_iff_nothing_exists (root : string)
    (customConfig : option string) (log : Log) (e : ConfigError) :
  join root DEFAULT_CONFIG_NAME ≠ "" →
  (∃ log', resolveConfigPath root customConfig log = (inl e, log'))
  ↔ e = ConfigNotFound DEFAULT_CONFIG_NAME root
    ∧ (∀ custom, customConfigPathOf root customConfig = Some custom →
                 existsSync custom = false)
    ∧ ∀ ext, ext ∈ DEFAULT_EXTENSIONS →
             existsSync (join root DEFAULT_CONFIG_NAME +:+ ext) = false.
Proof.
  intros Hbase.
  assert (Hsearch : ∀ log0,
            (∃ log', searchDefaultConfig root log0 = (inl e, log'))
            ↔ e = ConfigNotFound DEFAULT_CONFIG_NAME root
              ∧ ∀ ext, ext ∈ DEFAULT_EXTENSIONS →
                  existsSync (join root DEFAULT_CONFIG_NAME +:+ ext) = false).
  { intros log0. unfold searchDefaultConfig, findConfig.
    destruct (arrayFind _ _) as [found|] eqn:Hfind.
    - apply arrayFind_Some in Hfind as (i & Hi & Hexists & _).
      rewrite list_lookup_fmap in Hi.
      destruct (DEFAULT_EXTENSIONS !! i) as [ext|] eqn:Hext; [|done].
      injection Hi as <-.
      rewrite (proj2 (String.eqb_neq _ "")).
      + split; [by intros (log' & Hrun)|]. intros [_ Hnone].
        rewrite Hnone in Hexists; [done|]. by eapply list_elem_of_lookup_2.
      + destruct (join root DEFAULT_CONFIG_NAME); [done|discriminate].
    - split.
      + intros (log' & [= <- _]). split; [done|]. intros ext Hext.
        rewrite arrayFind_None in Hfind. apply Hfind.
        by apply (list_elem_of_fmap_2 (λ ext, _ +:+ ext)).
      + intros [-> _]. by eexists. }
  unfold resolveConfigPath, customConfigPathOf.
  destruct customConfig as [custom|].
  - destruct (negb _).
    + destruct (existsSync (if isAbsolute custom then _ else _)) eqn:Hcustom.
      * split; [by intros (log' & Hrun)|]. intros (_ & Hno & _).
        by rewrite (Hno _ eq_refl) in Hcustom.
      * rewrite Hsearch. split; [|tauto]. intros [-> Hnone].
        repeat split; [|done]. by intros custom' [= <-].
    + rewrite Hsearch. split; [|tauto]. intros [-> Hnone]. by repeat split.
  - rewrite Hsearch. split; [|tauto]. intros [-> Hnone]. by repeat split.
Qed.

(** A custom file that exists is returned as it is, and nothing is
    logged; one that is missing is reported by exactly one warning,
    whether or not the default search then finds a file. *)
Theorem resolveConfigPath_warns_for_missing_custom_file (root : string)
    (customConfig : option string) (log : Log) :
  (resolveConfigPath root customConfig log).2
  = log ++ match customConfigPathOf root customConfig with
           | Some custom =>
               if existsSync custom then []
               else [cannotFindConfigWarning custom]
           | None => []
           end
  ∧ ∀ custom, customConfigPathOf root customConfig = Some custom →
              existsSync custom = true →
              (resolveConfigPath root customConfig log).1 = inr custom.
Proof.
  assert (Hsearch : ∀ log0, (searchDefaultConfig root log0).2 = log0).
  { intros log0. unfold searchDefaultConfig.
    destruct (findConfig _); [|done]. by destruct (negb _). }
  unfold resolveConfigPath, customConfigPathOf.
  destruct customConfig as [custom|].
  - destruct (negb _).
    + destruct (existsSync (if isAbsolute custom then _ else _)) eqn:Hcustom.
      * simpl. rewrite app_nil_r. split; [done|]. by intros ? [= <-].
      * rewrite Hsearch. split; [done|]. intros ? [= <-]. congruence.
    + rewrite Hsearch, app_nil_r. by split.
  - rewrite Hsearch, app_nil_r. by split.
Qed.

End ConfigDiscovery.

Lemma resolveConfigPath_returns_existing_file_witness :
  existsSync (ConfigFiles := Sample.configFiles) "/proj/rslib.config.ts" = true.
Proof.
  exact (resolveConfigPath_returns_existing_file (H := Sample.configFiles)
           "/proj" None [] "/proj/rslib.config.ts" [] eq_refl).
Defined.

Lemma resolveConfigPath_first_extension_wins_witness :
  ∃ i ext,
    DEFAULT_EXTENSIONS (ConfigFiles := Sample.configFiles) !! i = Some ext
    ∧ "/proj/rslib.config.ts" = "/proj/rslib.config" +:+ ext
    ∧ ∀ j earlier,
        j < i →
        DEFAULT_EXTENSIONS (ConfigFiles := Sample.configFiles) !! j
        = Some earlier →
        existsSync (ConfigFiles := Sample.configFiles)
          ("/proj/rslib.config" +:+ earlier) = false.
Proof.
  apply (resolveConfigPath_first_extension_wins (H := Sample.configFiles)
           "/proj" (Some "missing.ts") []
           "/proj/rslib.config.ts"
           [cannotFindConfigWarning (H := Sample.configFiles)
              "/proj/missing.ts"]).
  - intros custom [= <-]. reflexivity.
  - reflexivity.
Defined.

Lemma resolveConfigPath_fails_iff_nothing_exists_witness :
  ∃ log',
    resolveConfigPath (H := Sample.configFiles) "/empty" (Some "missing.ts") []
    = (inl (ConfigNotFound "rslib.config" "/empty"), log').
Proof.
  apply (resolveConfigPath_fails_iff_nothing_exists (H := Sample.configFiles)
           "/empty" (Some "missing.ts") []).
  - discriminate.
  - split; [reflexivity|split].
    + intros custom [= <-]. reflexivity.
    + intros ext Hext. simpl in Hext.
      repeat (apply elem_of_cons in Hext as [->|Hext]; [reflexivity|]).
      by apply elem_of_nil in Hext.
Defined.

Lemma resolveConfigPath_warns_for_missing_custom_file_witness :
  (resolveConfigPath (H := Sample.configFiles) "/proj"
     (Some "build/custom.ts") []).1
  = inr "/proj/build/custom.ts".
Proof.
  exact (proj2 (resolveConfigPath_warns_for_missing_custom_file
                  (H := Sample.configFiles) "/proj" (Some "build/custom.ts")
                  [])
           "/proj/build/custom.ts" eq_refl eq_refl).
Defined.

(** ** Validation of format and target *)

Lemma isStr_true (v : Value) (s : string) : JS.isStr v s = true ↔ v = VStr s.
Proof.
  destruct v; simpl; try (split; [done|discriminate]).
  rewrite String.eqb_eq. split; [by intros ->|by intros [= ->]].
Qed.


Lemma composeFormatConfig_inr (format : Value) :
  (∃ fragment, composeFormatConfig format = inr fragment)
  ↔ format ∈ [VStr "esm"; VStr "cjs"; VStr "umd"].
Proof.
  unfold composeFormatConfig. rewrite !elem_of_cons.
  destruct (JS.isStr format "esm") eqn:Hesm;
    [apply isStr_true in Hesm; split; [auto|by eexists]|].
  destruct (JS.isStr format "cjs") eqn:Hcjs;
    [apply isStr_true in Hcjs; split; [auto|by eexists]|].
  destruct (JS.isStr format "umd") eqn:Humd;
    [apply isStr_true in Humd; split; [auto|by eexists]|].
  split; [by intros (fragment & Hrun)|].
  intros [->|[->|[->|Hnil]]]; try done. by apply elem_of_nil in Hnil.
Qed.


Lemma composeExternalsConfig_inr (format externals : Value) :
  (∃ fragment, composeExternalsConfig format externals = inr fragment)
  ↔ format ∈ [VStr "esm"; VStr "cjs"; VStr "umd"].
Proof.
  rewrite !elem_of_cons. unfold composeExternalsConfig.
  destruct (JS.isStr format "esm") eqn:Hesm;
    [apply isStr_true in Hesm; split; [auto|by eexists]|].
  destruct (JS.isStr format "cjs") eqn:Hcjs;
    [apply isStr_true in Hcjs; split; [auto|by eexists]|].
  destruct (JS.isStr format "umd") eqn:Humd;
    [apply isStr_true in Humd; split; [auto|by eexists]|].
  split; [by intros (fragment & Hrun)|].
  intros [->|[->|[->|Hnil]]]; try done. by apply elem_of_nil in Hnil.
Qed.

(** The externals policy accepts exactly the formats that the format
    policy accepts, whatever the externals: its own rejection of a
    format cannot be reached once the format policy has passed. *)
Theorem externals_policy_accepts_validated_formats (format externals : Value) :
  (∃ fragment, composeExternalsConfig format externals = inr fragment)
  ↔ (∃ fragment, composeFormatConfig format = inr fragment).
Proof. by rewrite composeExternalsConfig_inr, composeFormatConfig_inr. Qed.

Section ValidationFacts.

Context `{Externals}.

Lemma composeTargetConfig_inr (target : Value) :
  (∃ fragment, composeTargetConfig target = inr fragment)
  ↔ target ∈ [VUndefined; VStr "web"; VStr "node"; VStr "neutral"].
Proof.
  unfold composeTargetConfig. rewrite !elem_of_cons.
  assert (Hcases : target = VUndefined
                   ∨ JS.orDefault target (VStr "web") = target
                     ∧ target ≠ VUndefined)
    by (destruct target; auto).
  destruct Hcases as [->|[-> Hundef]]; [split; [auto|by eexists]|].
  destruct (JS.isStr target "web") eqn:Hweb;
    [apply isStr_true in Hweb; split; [auto|by eexists]|].
  destruct (JS.isStr target "node") eqn:Hnode;
    [apply isStr_true in Hnode; split; [auto|by eexists]|].
  destruct (JS.isStr target "neutral") eqn:Hneutral;
    [apply isStr_true in Hneutral; split; [auto 6|by eexists]|].
  split; [by intros (fragment & Hrun)|].
  intros [->|[->|[->|[->|Hnil]]]]; try done. by apply elem_of_nil in Hnil.
Qed.




(** A configuration is returned only for a unit whose format is esm,
    cjs or umd and whose target is web, node, neutral or left unset. *)
Theorem composed_unit_has_supported_format_and_target
    (userConfig configPath libRsbuildConfig : Value) (log log' : Log) :
  composeLibRsbuildConfig userConfig configPath log
  = (inr libRsbuildConfig, log') →
  JS.get userConfig "format" ∈ [VStr "esm"; VStr "cjs"; VStr "umd"]
  ∧ JS.get (JS.get userConfig "output") "target"
      ∈ [VUndefined; VStr "web"; VStr "node"; VStr "neutral"].
Proof.
  intros Hrun.
  apply composeLibRsbuildConfig_inv in Hrun
    as (F & w & (rootPath & _ & Hformat & _ & _ & _ & _ & _ & Htarget & _) & _).
  split.
  - apply composeFormatConfig_inr. by eexists.
  - apply composeTargetConfig_inr. by eexists.
Qed.

Lemma writes_composeEntryConfig_bundled (entries bundle : Value)
    (root : string) :
  JS.isFalse bundle = false →
  writes (composeEntryConfig entries bundle root)
    (inr (if JS.truthy entries
          then VObj [("source", VObj [("entry", entries)])]
          else VObj []))
    [].
Proof.
  intros Hbundle. unfold composeEntryConfig. rewrite Hbundle.
  destruct (JS.truthy entries); simpl; apply writes_ret.
Qed.


End ValidationFacts.



Lemma composed_unit_has_supported_format_and_target_witness :
  JS.get (Sample.lib "cjs") "format" ∈ [VStr "esm"; VStr "cjs"; VStr "umd"]
  ∧ JS.get (JS.get (Sample.lib "cjs") "output") "target"
      ∈ [VUndefined; VStr "web"; VStr "node"; VStr "neutral"].
Proof.
  refine (composed_unit_has_supported_format_and_target
            (H := Sample.externals) (Sample.lib "cjs")
            (VStr "/proj/rslib.config.ts") _ [] _ _).
  vm_compute. reflexivity.
Defined.


(** ** Entries *)

Lemma assoc_fold_setField (pairs : list (string * Value))
    (acc : list (string * Value)) (k : string) :
  JS.assoc k (fold_left (λ acc p, JS.setField p.1 p.2 acc) pairs acc)
  = match JS.assoc k (rev pairs) with
    | Some v => Some v
    | None => JS.assoc k acc
    end.
Proof.
  induction pairs as [|[k0 v0] pairs IH] using rev_ind; [done|].
  rewrite fold_left_app, rev_app_distr. simpl.
  rewrite assoc_setField, IH. by destruct (String.eqb k k0).
Qed.

Lemma assoc_elem_of (k : string) (v : Value) (l : list (string * Value)) :
  NoDup l.*1 → (k, v) ∈ l → JS.assoc k l = Some v.
Proof.
  induction l as [|[k0 v0] l IH]; simpl; intros Hnd Hin.
  - by apply elem_of_nil in Hin.
  - apply NoDup_cons in Hnd as [Hk0 Hnd].
    apply elem_of_cons in Hin as [[= -> ->]|Hin].
    + by rewrite String.eqb_refl.
    + destruct (String.eqb_spec k k0) as [->|_]; [|by apply IH].
      destruct Hk0. by apply (list_elem_of_fmap_2 fst) in Hin.
Qed.

Section EntryResolution.

Context `{Externals}.

Lemma resolveEntry_value (entries : Value) (root : string)
    (resolved : list (string * Value)) (key : string) :
  resolveEntry entries root resolved key
  = resolveEntryValue root resolved (JS.get entries key).
Proof. reflexivity. Qed.

Lemma fold_entry_files (outBase : string) (files : list string)
    (acc : list (string * Value)) :
  fold_left
    (λ acc file,
       let '(dir, name) := pathParse (pathRelative outBase file) in
       JS.setField (pathJoin dir name) (VStr file) acc)
    files acc
  = fold_left (λ acc p, JS.setField p.1 p.2 acc)
      ((λ file, (entryFileName outBase file, VStr file)) <$> files) acc.
Proof.
  revert acc. induction files as [|file files IH]; intros acc; [done|].
  simpl. rewrite <- IH. unfold entryFileName.
  by destruct (pathParse _).
Qed.

(** A round that returns has written the pairs of its key. *)
Lemma resolveEntry_inr (entries : Value) (root : string)
    (acc : list (string * Value)) (key : string) (log : Log)
    (resolved : list (string * Value)) (log' : Log) :
  resolveEntry entries root acc key log = (inr resolved, log') →
  log' = log
  ∧ resolved
    = fold_left (λ acc p, JS.setField p.1 p.2 acc)
        (entryPairs entries root key) acc.
Proof.
  unfold resolveEntry, entryPairs, bind, lift, throw, ret.
  destruct (entryFilesOf _) as [patterns|]; [|done].
  destruct (glob patterns root) as [e|files]; [done|].
  destruct (length files =? 0)%nat; [done|].
  intros [= <- <-]. split; [done|]. apply fold_entry_files.
Qed.

Lemma forOf_resolveEntry_inr (entries : Value) (root : string)
    (keys : list string) (acc : list (string * Value)) (log : Log)
    (resolved : list (string * Value)) (log' : Log) :
  forOf keys (resolveEntry entries root) acc log = (inr resolved, log') →
  resolved
  = fold_left (λ acc p, JS.setField p.1 p.2 acc)
      (keys ≫= entryPairs entries root) acc.
Proof.
  revert acc log. induction keys as [|key keys IH]; intros acc log; simpl.
  - by intros [= <- _].
  - unfold bind at 1.
    destruct (resolveEntry entries root acc key log) as [[e|acc'] log1]
      eqn:Hround; [done|].
    apply resolveEntry_inr in Hround as [-> ->].
    intros Hrest. apply IH in Hrest. by rewrite fold_left_app.
Qed.

(** In bundleless mode the entry map that is returned holds, under each
    name, the last matched file of that name, taking the entry keys in
    their order and the files of a key in the order of the glob: a later
    file replaces an earlier one of the same name, also across keys. *)
Theorem bundleless_entry_names_go_to_the_last_file (entries : Value)
    (root : string) (log : Log) (fragment : Value) (log' : Log) :
  JS.truthy entries = true →
  composeEntryConfig entries (VBool false) root log = (inr fragment, log') →
  ∃ resolved,
    fragment = VObj [("source", VObj [("entry", VObj resolved)])]
    ∧ ∀ name,
        JS.assoc name resolved
        = JS.assoc name (rev (JS.keys entries ≫= entryPairs entries root)).
Proof.
  intros Hentries. unfold composeEntryConfig. rewrite Hentries. simpl.
  unfold bind at 1.
  destruct (forOf _ _ _ _) as [[e|resolved] log1] eqn:Hloop; [done|].
  intros [= <- <-]. exists resolved. split; [done|]. intros name.
  apply forOf_resolveEntry_inr in Hloop as ->.
  rewrite assoc_fold_setField. by destruct (JS.assoc name _).
Qed.

Lemma forOf_keys_values (entries : Value) (root : string)
    (fields : list (string * Value)) (acc : list (string * Value))
    (log : Log) :
  (∀ k v, (k, v) ∈ fields → JS.get entries k = v) →
  forOf fields.*1 (resolveEntry entries root) acc log
  = forOf fields.*2 (resolveEntryValue root) acc log.
Proof.
  revert acc log. induction fields as [|[k v] fields IH];
    intros acc log Hget; [done|].
  simpl. unfold bind. rewrite resolveEntry_value, (Hget k v) by by left.
  destruct (resolveEntryValue root acc v log) as [[e|acc'] log1]; [done|].
  apply IH. intros k' v' Hin. apply Hget. by right.
Qed.

(** In bundleless mode the names of the entry keys play no part: two
    entry objects with the same values in the same order give the same
    outcome, whatever their keys. *)
Theorem bundleless_entry_keys_are_ignored
    (fields1 fields2 : list (string * Value)) (root : string) (log : Log) :
  NoDup fields1.*1 → NoDup fields2.*1 →
  fields1.*2 = fields2.*2 →
  composeEntryConfig (VObj fields1) (VBool false) root log
  = composeEntryConfig (VObj fields2) (VBool false) root log.
Proof.
  intros Hnd1 Hnd2 Hvalues. unfold composeEntryConfig. simpl.
  unfold bind, JS.keys. simpl.
  rewrite !forOf_keys_values, Hvalues; [done|..].
  - intros k v Hin. unfold JS.get. simpl. by rewrite (assoc_elem_of k v).
  - intros k v Hin. unfold JS.get. simpl. by rewrite (assoc_elem_of k v).
Qed.

(** In bundleless mode an entry that is neither a string nor an array,
    such as an entry description object, ends the resolution with the
    error of the entry shape, once the keys before it are resolved. *)
Theorem bundleless_entry_of_other_shape_is_refused (entries : Value)
    (root : string) (before after : list string) (key : string)
    (resolved : list (string * Value)) (log log' : Log) :
  JS.truthy entries = true →
  JS.keys entries = before ++ key :: after →
  forOf before (resolveEntry entries root) [] log = (inr resolved, log') →
  JS.isArray (JS.get entries key) = false →
  (∀ pattern, JS.get entries key ≠ VStr pattern) →
  composeEntryConfig entries (VBool false) root log = (inl EntryShape, log')
  ∧ message EntryShape
    = "Entry can only be a string or an array of strings for now".
Proof.
  intros Hentries Hkeys Hbefore Harray Hstring. split; [|done].
  unfold composeEntryConfig. rewrite Hentries. simpl.
  unfold bind at 1. rewrite Hkeys, forOf_app, Hbefore. simpl.
  unfold bind at 1. unfold resolveEntry.
  destruct (JS.get entries key); try done. by destruct (Hstring s).
Qed.

End EntryResolution.

Lemma bundleless_entry_names_go_to_the_last_file_witness :
  ∃ resolved,
    VObj [("source", VObj [("entry", VObj [("index", VStr "src/index.ts")])])]
    = VObj [("source", VObj [("entry", VObj resolved)])]
    ∧ ∀ name,
        JS.assoc name resolved
        = JS.assoc name
            (rev (JS.keys Sample.entriesTwice
                    ≫= entryPairs (H := Sample.externals)
                         Sample.entriesTwice "/proj")).
Proof.
  exact (bundleless_entry_names_go_to_the_last_file (H := Sample.externals)
           Sample.entriesTwice "/proj" [] _ [] eq_refl eq_refl).
Defined.

Lemma bundleless_entry_keys_are_ignored_witness :
  composeEntryConfig (H := Sample.externals)
    (VObj [("index", VStr "src/*.ts")]) (VBool false) "/proj" []
  = composeEntryConfig (H := Sample.externals)
      (VObj [("main", VStr "src/*.ts")]) (VBool false) "/proj" [].
Proof.
  apply (bundleless_entry_keys_are_ignored (H := Sample.externals)
           [("index", VStr "src/*.ts")] [("main", VStr "src/*.ts")]);
    [repeat constructor; apply not_elem_of_nil..|reflexivity].
Defined.

Lemma bundleless_entry_of_other_shape_is_refused_witness :
  composeEntryConfig (H := Sample.externals) Sample.entriesWithObject
    (VBool false) "/proj" []
  = (inl EntryShape, []).
Proof.
  refine (proj1 (bundleless_entry_of_other_shape_is_refused
                   (H := Sample.externals) Sample.entriesWithObject "/proj"
                   [] [] "index" [] [] [] eq_refl eq_refl eq_refl eq_refl _)).
  intros pattern. discriminate.
Defined.

(** ** The callback of bundleless mode *)

Lemma splitExtension_no_dot (s : list ascii) :
  "."%char ∉ s → splitExtension s = None.
Proof.
  induction s as [|c s IH]; [done|]. rewrite not_elem_of_cons.
  intros [Hc Hs]. simpl. rewrite IH by done.
  by rewrite (proj2 (Ascii.eqb_neq c ".")) by congruence.
Qed.

Lemma forallb_no_dot (s : list ascii) :
  "."%char ∉ s → forallb (λ d, negb (Ascii.eqb d ".")) s = true.
Proof.
  induction s as [|c s IH]; [done|]. rewrite not_elem_of_cons.
  intros [Hc Hs]. simpl. rewrite IH by done.
  by rewrite (proj2 (Ascii.eqb_neq c ".")) by congruence.
Qed.

(** The last dot splits a text that ends in a dot and an extension. *)
Lemma splitExtension_stem (stem ext : list ascii) :
  ext ≠ [] → "."%char ∉ ext →
  splitExtension (stem ++ "."%char :: ext) = Some (stem, ext).
Proof.
  intros Hne Hext. induction stem as [|c stem IH]; simpl.
  - rewrite splitExtension_no_dot, forallb_no_dot by done.
    by destruct ext.
  - by rewrite IH.
Qed.

Lemma replaceExtension_stem (stem ext jsExtension : string) :
  ext ≠ "" → "."%char ∉ list_ascii_of_string ext →
  replaceExtension (stem +:+ "." +:+ ext) jsExtension = stem +:+ jsExtension.
Proof.
  intros Hne Hext. unfold replaceExtension.
  rewrite !list_ascii_of_string_app. simpl.
  rewrite splitExtension_stem; [|by destruct ext|done].
  by rewrite string_of_list_ascii_of_string.
Qed.

(** For a module imported by another one, a relative request leaves the
    callback with the js extension of the unit: appended when the request
    has no extension, put in the place of the extension when it has
    one.  The extension holds no dollar sign, which would stand for a
    replacement pattern. *)
Theorem relative_request_gets_the_js_extension (extname : string → string)
    (jsExtension issuer request : string) :
  issuer ≠ "" →
  String.prefix "." request = true →
  "$"%char ∉ list_ascii_of_string jsExtension →
  (extname request = "" →
   rewriteRequest extname jsExtension issuer request
   = Some (request +:+ jsExtension))
  ∧ (extname request ≠ "" →
     ∀ stem ext,
       request = stem +:+ "." +:+ ext →
       ext ≠ "" → "."%char ∉ list_ascii_of_string ext →
       rewriteRequest extname jsExtension issuer request
       = Some (stem +:+ jsExtension)).
Proof.
  intros Hissuer Hrelative _. unfold rewriteRequest.
  rewrite (proj2 (String.eqb_neq issuer "")), Hrelative by done. simpl.
  split.
  - intros ->. by rewrite String.eqb_refl.
  - intros Hextname stem ext -> Hne Hext.
    rewrite (proj2 (String.eqb_neq _ "")) by done. simpl.
    by rewrite replaceExtension_stem.
Qed.

Lemma relative_request_gets_the_js_extension_witness :
  rewriteRequest (λ request, ".ts") ".mjs" "/proj/src/index.ts" "./utils.ts"
  = Some "./utils.mjs".
Proof.
  refine (proj2 (relative_request_gets_the_js_extension (λ request, ".ts")
                   ".mjs" "/proj/src/index.ts" "./utils.ts" _ eq_refl _)
            _ "./utils" "ts" eq_refl _ _); try discriminate.
  - simpl. intros Hin.
    repeat (apply elem_of_cons in Hin as [Hin|Hin]; [discriminate|]).
    by apply elem_of_nil in Hin.
  - simpl. intros Hin.
    repeat (apply elem_of_cons in Hin as [Hin|Hin]; [discriminate|]).
    by apply elem_of_nil in Hin.
Defined.

(** A request that the callback has given the extension [.ext] comes
    back unchanged when it is handed to the callback again; [ext] holds
    no dollar sign. *)
Theorem rewritten_request_is_stable (extname : string → string)
    (ext issuer stem : string) :
  issuer ≠ "" →
  String.prefix "." (stem +:+ "." +:+ ext) = true →
  extname (stem +:+ "." +:+ ext) ≠ "" →
  ext ≠ "" → "."%char ∉ list_ascii_of_string ext →
  "$"%char ∉ list_ascii_of_string ext →
  rewriteRequest extname ("." +:+ ext) issuer (stem +:+ "." +:+ ext)
  = Some (stem +:+ "." +:+ ext).
Proof.
  intros Hissuer Hrelative Hextname Hne Hext _. unfold rewriteRequest.
  rewrite (proj2 (String.eqb_neq issuer "")), Hrelative by done.
  rewrite (proj2 (String.eqb_neq _ "")) by done. simpl.
  by rewrite replaceExtension_stem.
Qed.

Lemma rewritten_request_is_stable_witness :
  rewriteRequest (λ request, ".mjs") ".mjs" "/proj/src/index.ts"
    "./utils.mjs"
  = Some "./utils.mjs".
Proof.
  refine (rewritten_request_is_stable (λ request, ".mjs") "mjs"
            "/proj/src/index.ts" "./utils" _ eq_refl _ _ _ _);
    try discriminate.
  - simpl. intros Hin.
    repeat (apply elem_of_cons in Hin as [Hin|Hin]; [discriminate|]).
    by apply elem_of_nil in Hin.
  - simpl. intros Hin.
    repeat (apply elem_of_cons in Hin as [Hin|Hin]; [discriminate|]).
    by apply elem_of_nil in Hin.
Defined.

(** ** More on the policies *)

(** The auto-extension fragment overrides no filename rule but that of
    js: every other rule of the user's [output.filename] is carried over
    as it is. *)
Theorem autoExtension_keeps_other_filename_rules
    (libConfig autoExtension : Value) (pkgJson : option PkgJson)
    (kind : string) :
  NoDup (JS.keys (JS.get (JS.get libConfig "output") "filename")) →
  kind ≠ "js" →
  JS.get
    (JS.get
       (JS.get
          (config (composeAutoExtensionConfig libConfig autoExtension pkgJson))
          "output")
       "filename")
    kind
  = JS.get (JS.get (JS.get libConfig "output") "filename") kind.
Proof.
  intros Hkeys Hkind. unfold composeAutoExtensionConfig.
  destruct (getDefaultExtension _ _ _) as [js dts]. simpl.
  unfold JS.get at 1. simpl JS.ownEntries.
  rewrite assoc_spread by done. simpl.
  rewrite (proj2 (String.eqb_neq kind "js")) by done.
  unfold JS.get at 3. by destruct (JS.assoc kind _).
Qed.

Lemma autoExtension_keeps_other_filename_rules_witness :
  JS.get
    (JS.get
       (JS.get
          (config
             (composeAutoExtensionConfig
                (VObj [("format", VStr "esm");
                       ("output",
                        VObj [("filename",
                               VObj [("css", VStr "[name].css")])])])
                (VBool true) (Some Sample.pkg)))
          "output")
       "filename")
    "css"
  = VStr "[name].css".
Proof.
  refine (autoExtension_keeps_other_filename_rules
            (VObj [("format", VStr "esm");
                   ("output",
                    VObj [("filename", VObj [("css", VStr "[name].css")])])])
            (VBool true) (Some Sample.pkg) "css" _ _); [|discriminate].
  vm_compute. repeat constructor. apply not_elem_of_nil.
Defined.

(** With auto-external on and the descriptor read, the fragment is the
    empty object, without even an empty list of externals, exactly when
    every name of the selected dependency lists is a key of the user's
    externals object (which is so when the lists are empty). *)
Theorem autoExternal_fragment_is_empty_iff_nothing_is_left
    (autoExternal : Value) (pkgJson : PkgJson) (userExternals : Value) :
  JS.truthy autoExternal = true →
  writes (composeAutoExternalConfig autoExternal (Some pkgJson) userExternals)
    (inr (VObj [])) []
  ↔ ∀ name, selectedDependency autoExternal pkgJson name →
            name ∈ userExternalKeys userExternals.
Proof.
  intros Hon.
  assert (Hnil : autoExternals autoExternal pkgJson userExternals = []
                 ↔ ∀ name, selectedDependency autoExternal pkgJson name →
                           name ∈ userExternalKeys userExternals).
  { split.
    - intros Hempty name Hselected.
      destruct (decide (name ∈ userExternalKeys userExternals)); [done|].
      assert (Hin : name ∈ autoExternals autoExternal pkgJson userExternals)
        by by apply autoExternals_elem_of.
      rewrite Hempty in Hin. by apply elem_of_nil in Hin.
    - intros Hall.
      destruct (autoExternals _ _ _) as [|name rest] eqn:Hlist; [done|].
      assert (Hin : name ∈ autoExternals autoExternal pkgJson userExternals)
        by (rewrite Hlist; by left).
      apply autoExternals_elem_of in Hin as [Hselected Hnot].
      destruct Hnot. by apply Hall. }
  rewrite <- Hnil. unfold composeAutoExternalConfig. rewrite Hon. simpl.
  split.
  - intros Hrun. specialize (Hrun []). unfold ret in Hrun.
    destruct (autoExternals _ _ _); [done|]. simpl in Hrun. discriminate.
  - intros ->. apply writes_ret.
Qed.

Lemma autoExternal_fragment_is_empty_iff_nothing_is_left_witness :
  writes
    (composeAutoExternalConfig (VBool true)
       (Some {| pkgType := TypeModule;
                dependencies := None;
                peerDependencies := Some [("react", "^18.0.0")];
                devDependencies := Some [("typescript", "^5.5.4")] |})
       Sample.userExternals)
    (inr (VObj [])) []
  ↔ ∀ name,
      selectedDependency (VBool true)
        {| pkgType := TypeModule;
           dependencies := None;
           peerDependencies := Some [("react", "^18.0.0")];
           devDependencies := Some [("typescript", "^5.5.4")] |} name →
      name ∈ userExternalKeys Sample.userExternals.
Proof.
  exact (autoExternal_fragment_is_empty_iff_nothing_is_left (VBool true) _
           Sample.userExternals eq_refl).
Defined.

(** The bundle flag, when it is a boolean or left unset, is read alike
    by the two policies that look at it: unless it is [false] there is
    no bundle fragment and the entries are passed through untouched, and
    when it is [false] the externals of the bundle fragment are the one
    callback that rewrites requests. *)
Theorem bundle_flag_switches_both_policies `{Externals} (jsExtension : string)
    (entries bundle : Value) (root : string) :
  bundle ∈ [VUndefined; VBool true; VBool false] →
  (bundle ≠ VBool false →
   composeBundleConfig jsExtension bundle = VObj []
   ∧ writes (composeEntryConfig entries bundle root)
       (inr (if JS.truthy entries
             then VObj [("source", VObj [("entry", entries)])]
             else VObj []))
       [])
  ∧ (bundle = VBool false →
     externalsOf (composeBundleConfig jsExtension bundle)
     = [rewriteRequestCallback jsExtension]).
Proof.
  rewrite !elem_of_cons.
  intros [->|[->|[->|Hnil]]]; [..|by apply elem_of_nil in Hnil];
    (split; [intros Hbundle|by intros [= ]]); try done;
    (split; [done|]); by apply writes_composeEntryConfig_bundled.
Qed.

Lemma bundle_flag_switches_both_policies_witness :
  externalsOf (composeBundleConfig ".mjs" (VBool false))
  = [rewriteRequestCallback ".mjs"].
Proof.
  refine (proj2 (bundle_flag_switches_both_policies (H := Sample.externals)
                   ".mjs" VUndefined (VBool false) "/proj" _) eq_refl).
  right. right. by left.
Defined.

(** ** The list of composed units *)

Section RootFacts.

Context `{Externals}.



(** A root configuration whose [lib] is missing, or is any other falsy
    value, is rejected before anything is composed, with the error that
    prints the value; an empty [lib] array is accepted and composes
    nothing. *)
Theorem lib_missing_is_an_error_and_empty_is_not (rslibConfig path : Value) :
  (JS.truthy (JS.get rslibConfig "lib") = false →
   writes (composeCreateRsbuildConfig rslibConfig path)
     (inl (ExpectLibArray (JS.get rslibConfig "lib"))) []
   ∧ message (ExpectLibArray (JS.get rslibConfig "lib"))
     = "Expect lib field to be an array, but got "
       +:+ JS.toString (JS.get rslibConfig "lib") +:+ ".")
  ∧ (JS.get rslibConfig "lib" = VArr [] →
     writes (composeCreateRsbuildConfig rslibConfig path) (inr []) []
     ∧ writes (initRsbuild rslibConfig) (inr ∅) []).
Proof.
  split.
  - intros Hlib. split; [|done].
    unfold composeCreateRsbuildConfig. rewrite Hlib. apply writes_throw.
  - intros Hlib.
    assert (Hrun : ∀ path',
              writes (composeCreateRsbuildConfig rslibConfig path')
                (inr []) []).
    { intros path'. unfold composeCreateRsbuildConfig. rewrite Hlib.
      apply writes_ret. }
    split; [apply Hrun|].
    intros log. unfold initRsbuild, bind. by rewrite Hrun.
Qed.

End RootFacts.


Lemma lib_missing_is_an_error_and_empty_is_not_witness :
  writes
    (composeCreateRsbuildConfig (H := Sample.externals)
       (VObj [("output", VObj [])]) VUndefined)
    (inl (ExpectLibArray VUndefined)) []
  ∧ message (ExpectLibArray VUndefined)
    = "Expect lib field to be an array, but got undefined.".
Proof.
  exact (proj1 (lib_missing_is_an_error_and_empty_is_not
                  (H := Sample.externals) (VObj [("output", VObj [])])
                  VUndefined) eq_refl).
Defined.

(** ** One environment for each unit *)




Lemma test_prefixPattern_literal_witness :
  RegExp.test (prefixPattern "@scope/pkg") "@scope/pkg/sub" = Some true
  ∧ RegExp.test (prefixPattern "@scope/pkg") "@scope/pkg-extra" = Some false.
Proof.
  assert (Hname : Forall (λ c, RegExp.syntaxChar c = false)
                    (list_ascii_of_string "@scope/pkg"))
    by (repeat constructor).
  split.
  - exact (RegExpFacts.test_prefixPattern_literal "@scope/pkg"
             "@scope/pkg/sub" Hname).
  - exact (RegExpFacts.test_prefixPattern_literal "@scope/pkg"
             "@scope/pkg-extra" Hname).
Defined.

(** ** The reset, once more *)

Lemma setField_setField (k : string) (v v' : Value)
    (l : list (string * Value)) :
  JS.setField k v (JS.setField k v' l) = JS.setField k v l.
Proof.
  induction l as [|[k0 v0] l IH]; simpl.
  - by rewrite String.eqb_refl.
  - destruct (String.eqb k k0) eqn:Hk; simpl.
    + by rewrite String.eqb_refl.
    + by rewrite Hk, IH.
Qed.

Lemma setField_same (k : string) (v : Value) (l : list (string * Value)) :
  JS.assoc k l = Some v → JS.setField k v l = l.
Proof.
  induction l as [|[k0 v0] l IH]; simpl; [done|].
  destruct (String.eqb_spec k k0) as [->|Hne].
  - by intros [= ->].
  - intros Hl. by rewrite IH.
Qed.

Lemma deleteField_deleteField (k : string) (l : list (string * Value)) :
  JS.deleteField k (JS.deleteField k l) = JS.deleteField k l.
Proof.
  unfold JS.deleteField. induction l as [|[k0 v0] l IH]; [done|].
  rewrite filter_cons. destruct (decide _) as [Hkeep|Hdrop]; [|done].
  by rewrite filter_cons, decide_True, IH.
Qed.

(** The fields of a plain object after the reset: the source with its
    entry emptied, the output without its externals, the rest as it
    was. *)
Lemma resetUserConfig_fields (fields : list (string * Value)) :
  resetUserConfig (VObj fields)
  = VObj
      (JS.setField "output"
         (JS.deleteProp
            (JS.coalesce (JS.get (VObj fields) "output") (VObj []))
            "externals")
         (JS.setField "source"
            (JS.setProp
               (JS.coalesce (JS.get (VObj fields) "source") (VObj []))
               "entry" (VObj []))
            fields)).
Proof.
  unfold resetUserConfig. cbv zeta. cbn [JS.setProp].
  rewrite (get_setField fields "source" "source"), String.eqb_refl.
  cbn [JS.setProp]. rewrite setField_setField.
  rewrite (get_setField _ "source" "output").
  change (String.eqb "output" "source") with false. cbv iota.
  cbn [JS.setProp].
  rewrite (get_setField _ "output" "output"), String.eqb_refl.
  cbn [JS.setProp]. rewrite setField_setField.
  rewrite (get_setField _ "source" "output").
  by change (String.eqb "output" "source") with false.
Qed.

(** Resetting a configuration that has been reset changes nothing. *)
Theorem resetUserConfig_is_idempotent (fields : list (string * Value)) :
  plainOrUnset (JS.get (VObj fields) "source") = true →
  plainOrUnset (JS.get (VObj fields) "output") = true →
  resetUserConfig (resetUserConfig (VObj fields))
  = resetUserConfig (VObj fields).
Proof.
  intros Hsource Houtput.
  assert (Hs : ∃ source,
            JS.setProp (JS.coalesce (JS.get (VObj fields) "source") (VObj []))
              "entry" (VObj [])
            = VObj (JS.setField "entry" (VObj []) source)).
  { destruct (JS.get (VObj fields) "source"); try done; by eexists. }
  assert (Ho : ∃ output,
            JS.deleteProp
              (JS.coalesce (JS.get (VObj fields) "output") (VObj []))
              "externals"
            = VObj (JS.deleteField "externals" output)).
  { destruct (JS.get (VObj fields) "output"); try done; by eexists. }
  destruct Hs as (source & Hs). destruct Ho as (output & Ho).
  rewrite (resetUserConfig_fields fields), Hs, Ho.
  rewrite resetUserConfig_fields.
  rewrite (get_setField _ "output" "output"), String.eqb_refl.
  rewrite (get_setField _ "output" "source").
  change (String.eqb "source" "output") with false. cbv iota.
  rewrite (get_setField _ "source" "source"), String.eqb_refl.
  unfold JS.coalesce. simpl JS.nullish. cbv iota. cbn [JS.setProp JS.deleteProp].
  rewrite (setField_setField "entry"), deleteField_deleteField.
  rewrite (setField_same "source").
  - by rewrite setField_setField.
  - rewrite assoc_setField.
    change (String.eqb "source" "output") with false. cbv iota.
    by rewrite assoc_setField, String.eqb_refl.
Qed.

Lemma resetUserConfig_is_idempotent_witness :
  resetUserConfig
    (resetUserConfig
       (VObj [("format", VStr "esm");
              ("output", VObj [("externals", Sample.userExternals)])]))
  = resetUserConfig
      (VObj [("format", VStr "esm");
             ("output", VObj [("externals", Sample.userExternals)])]).
Proof.
  exact (resetUserConfig_is_idempotent
           [("format", VStr "esm");
            ("output", VObj [("externals", Sample.userExternals)])]
           eq_refl eq_refl).
Defined.
